(** * SPI decoder: a shallow embedding of [spi_decoder.py]

    The three stages of the decoding pipeline are embedded as Rocq
    functions and the properties of the specification are proved about
    them:

    - [convert_analog_to_digital]: hysteresis digitizer;
    - [latch_data_on_sclk_to_bitstream]: clock-edge data latch;
    - [decode_bitstream]: bit grouping and positional decoding.

    Analog samples are rationals: every finite binary64 value is a
    rational and the only operations the digitizer applies to a sample
    are the comparisons [>=] and [<=], which agree with the rational
    order.  Python integers are [Z]; lists are [list]; a raised
    exception is the [Raise] branch of [result]. *)

From Stdlib Require Import String HexString.
From Stdlib Require Import ZArith QArith List Bool Lia Sorted.
Import ListNotations.

Local Open Scope Z_scope.

(** ** Python values and exceptions *)

(** The values that travel through the pipeline: [None], an [int], or
    (for the hexadecimal output) a [str]. *)
Inductive pyval : Type :=
| PyNone
| PyInt (n : Z)
| PyStr (s : string).

Inductive exn : Type :=
| LengthsMustMatch                         (* Exception("Lengths must match!") *)
| CannotGroup (group_by total_length : Z)  (* Exception("Cannot group ...") *)
| ZeroDivisionError
| TypeError
| IndexError.

Inductive result (A : Type) : Type :=
| Ok (a : A)
| Raise (e : exn).
Arguments Ok {A} a.
Arguments Raise {A} e.

Definition bind {A B} (m : result A) (k : A -> result B) : result B :=
  match m with
  | Ok a => k a
  | Raise e => Raise e
  end.

Notation "x <- m ;; k" := (bind m (fun x => k))
  (at level 61, m at next level, right associativity).

(** A [for] loop whose body may raise: the accumulator is threaded
    through the iterations and the first exception aborts the loop. *)
Fixpoint for_each {A S} (body : S -> A -> result S) (items : list A) (s : S)
  : result S :=
  match items with
  | [] => Ok s
  | x :: rest => s' <- body s x ;; for_each body rest s'
  end.

(** [n == v] for an integer literal [n]. *)
Definition int_eq (n : Z) (v : pyval) : bool :=
  match v with
  | PyInt m => n =? m
  | _ => false
  end.

(** [range(start, stop)]. *)
Definition py_range (start stop : Z) : list Z :=
  map (fun k => start + Z.of_nat k) (seq 0 (Z.to_nat (stop - start))).

(** Clamping of a slice bound to [0 .. len], negative bounds counting
    from the end. *)
Definition slice_bound (len k : Z) : Z :=
  if k <? 0 then Z.max 0 (k + len) else Z.min k len.

(** [l[start:stop]]. *)
Definition slice {A} (l : list A) (start stop : Z) : list A :=
  let len := Z.of_nat (length l) in
  let a := slice_bound len start in
  let b := slice_bound len stop in
  firstn (Z.to_nat (b - a)) (skipn (Z.to_nat a) l).

(** [l[i]]: negative indices count from the end, anything outside the
    list raises [IndexError]. *)
Definition getitem {A} (l : list A) (i : Z) : result A :=
  let len := Z.of_nat (length l) in
  let k := if i <? 0 then i + len else i in
  if (k <? 0) || (len <=? k) then Raise IndexError
  else match nth_error l (Z.to_nat k) with
       | Some x => Ok x
       | None => Raise IndexError
       end.

(** [enumerate(l)]. *)
Definition enumerate {A} (l : list A) : list (Z * A) :=
  combine (map Z.of_nat (seq 0 (length l))) l.

(** ** Digitizer *)

Module Digitizer.

(** The local variables of [convert_analog_to_digital]. *)
Record locals : Type := mkLocals {
  data_filt : list pyval;
  previous_data : pyval;
  first : bool
}.

Definition init : locals :=
  {| data_filt := []; previous_data := PyNone; first := true |}.

(** [value >= threshold]  and  [value <= threshold]. *)
Definition ge (value threshold : Q) : bool := Qle_bool threshold value.
Definition le (value threshold : Q) : bool := Qle_bool value threshold.

(** State chosen at the first sample: the [if]/[elif] has no [else],
    so [previous_data] keeps its initial value in the dead band. *)
Definition first_state (threshold_low threshold_high : Q) (prev : pyval)
  (value : Q) : pyval :=
  if ge value threshold_high then PyInt 1
  else if le value threshold_low then PyInt 0
  else prev.

(** State chosen at every later sample. *)
Definition next_state (threshold_low threshold_high : Q) (prev : pyval)
  (value : Q) : pyval :=
  if ge value threshold_high && int_eq 0 prev then PyInt 1
  else if le value threshold_low && int_eq 1 prev then PyInt 0
  else prev.

(** One iteration of the [for value in data] loop. *)
Definition loop_body (threshold_low threshold_high : Q) (st : locals)
  (value : Q) : locals :=
  if first st then
    let p := first_state threshold_low threshold_high (previous_data st) value in
    {| data_filt := data_filt st ++ [p]; previous_data := p; first := false |}
  else
    let p := next_state threshold_low threshold_high (previous_data st) value in
    {| data_filt := data_filt st ++ [p]; previous_data := p; first := first st |}.

Definition convert_analog_to_digital (data : list Q)
  (threshold_low threshold_high : Q) : list pyval :=
  data_filt (fold_left (loop_body threshold_low threshold_high) data init).

End Digitizer.

(** ** Edge latch *)

Module Latch.

(** [now == sclk_digital[i] and before == sclk_digital[i-1]]; [and]
    evaluates its second operand only when the first is true. *)
Definition edge_test (sclk_digital : list pyval) (now before : Z) (i : Z)
  : result bool :=
  cur <- getitem sclk_digital i ;;
  if int_eq now cur then
    prev <- getitem sclk_digital (i - 1) ;; Ok (int_eq before prev)
  else Ok false.

(** One iteration of [for i in range(1, len(sclk_digital))]. *)
Definition loop_body (sclk_digital data_digital : list pyval)
  (rising_edge : bool) (bit_stream : list pyval) (i : Z)
  : result (list pyval) :=
  if rising_edge then
    edge <- edge_test sclk_digital 1 0 i ;;
    if edge then d <- getitem data_digital i ;; Ok (bit_stream ++ [d])
    else Ok bit_stream
  else
    edge <- edge_test sclk_digital 0 1 i ;;
    if edge then d <- getitem data_digital i ;; Ok (bit_stream ++ [d])
    else Ok bit_stream.

Definition latch_data_on_sclk_to_bitstream (sclk_digital data_digital : list pyval)
  (rising_edge : bool) : result (list pyval) :=
  if negb (Nat.eqb (length sclk_digital) (length data_digital)) then
    Raise LengthsMustMatch
  else
    for_each (loop_body sclk_digital data_digital rising_edge)
      (py_range 1 (Z.of_nat (length sclk_digital))) [].

End Latch.

(** ** Bit grouper / decoder *)

Module Decoder.

(** [bit << j] for a shift count that is never negative here. *)
Definition lshift (bit : pyval) (j : Z) : result Z :=
  match bit with
  | PyInt b => Ok (Z.shiftl b j)
  | _ => Raise TypeError
  end.

(** The inner loop: [number |= (bit << j)] over [enumerate(ordered_group)]. *)
Definition accumulate (ordered_group : list pyval) : result Z :=
  for_each (fun number jb => b <- lshift (snd jb) (fst jb) ;; Ok (Z.lor number b))
    (enumerate ordered_group) 0.

(** [hex(number)]: lowercase digits after [0x], a leading minus sign for
    negative numbers. *)
Definition hex (number : Z) : string := HexString.of_Z number.

Definition emit (hexadecimal : bool) (number : Z) : pyval :=
  if hexadecimal then PyStr (hex number) else PyInt number.

(** One iteration of [for i in range(groups_count)]. *)
Definition loop_body (bitstream : list pyval) (group_by : Z)
  (MSB_first hexadecimal : bool) (grouped_stream : list pyval) (i : Z)
  : result (list pyval) :=
  let group := slice bitstream (i * group_by) (group_by + i * group_by) in
  let ordered_group := if MSB_first then rev group else group in
  number <- accumulate ordered_group ;;
  Ok (grouped_stream ++ [emit hexadecimal number]).

(** [total_length % group_by] raises [ZeroDivisionError] for a zero
    divisor and is otherwise the floored remainder, which is [Z.modulo].
    [int(total_length / group_by)] is reached only when the remainder is
    zero; the quotient is then exact and truncation leaves it as it is. *)
Definition decode_bitstream (bitstream : list pyval) (group_by : Z)
  (MSB_first hexadecimal : bool) : result (list pyval) :=
  let total_length := Z.of_nat (length bitstream) in
  if group_by =? 0 then Raise ZeroDivisionError
  else if negb (total_length mod group_by =? 0) then
    Raise (CannotGroup group_by total_length)
  else
    let groups_count := Z.quot total_length group_by in
    for_each (loop_body bitstream group_by MSB_first hexadecimal)
      (py_range 0 groups_count) [].

End Decoder.

(** ** The program: [convert_csv_to_dataframe] and [main] *)

Module Main.

(** What [main] uses of the table read from a file: row by row, the
    values of column 1 (the clock) and of column 2 (the data).  Both
    columns of a table have the number of rows of the table. *)
Definition dataframe : Type := list (Q * Q).

(** [df.iloc[:, 1]] and [df.iloc[:, 2]]. *)
Definition column1 (df : dataframe) : list Q := map fst df.
Definition column2 (df : dataframe) : list Q := map snd df.

(** The body of [if df is not None] up to the assignment of [decoded]:
    both columns are digitized with the default thresholds 0.8 and 2.0,
    the data is latched on rising edges and decoded with the defaults
    [group_by=8], [MSB_first=True], [hexadecimal=True]. *)
Definition decode_table (df : dataframe) : result (list pyval) :=
  let sclk := Digitizer.convert_analog_to_digital (column1 df) (4 # 5) 2 in
  let signal := Digitizer.convert_analog_to_digital (column2 df) (4 # 5) 2 in
  bit_stream <- Latch.latch_data_on_sclk_to_bitstream sclk signal true ;;
  Decoder.decode_bitstream bit_stream 8 true true.

(** A line written to the standard output. *)
Inductive line : Type :=
| NotFound (filename : string)                        (* Error: File '...' not found. *)
| Decoded (filename : string) (decoded : list pyval). (* Decoded data from ...: -> [...] *)

(** How a run of [main] ends. *)
Inductive ending : Type :=
| Finished
| FilenameMissing            (* AttributeError("Filename must be passed as argument") *)
| Raised (e : exn).

Section Program.

(** [pd.read_csv(filename, sep=";", decimal=",")]: the table, or [None]
    when it raises [FileNotFoundError] (its other failures are outside
    this model). *)
Variable read_csv : string -> option dataframe.

(** Returns what it prints and the table, [None] standing for Python's
    [None]. *)
Definition convert_csv_to_dataframe (filename : string)
  : list line * option dataframe :=
  match read_csv filename with
  | Some df => ([], Some df)
  | None => ([NotFound filename], None)
  end.

(** [for filename in argv[1:]], with the output written so far. *)
Fixpoint files_loop (filenames : list string) (stdout : list line)
  : list line * ending :=
  match filenames with
  | [] => (stdout, Finished)
  | filename :: rest =>
      let (printed, df) := convert_csv_to_dataframe filename in
      match df with
      | None => files_loop rest (stdout ++ printed)
      | Some table =>
          match decode_table table with
          | Ok decoded =>
              files_loop rest (stdout ++ printed ++ [Decoded filename decoded])
          | Raise e => (stdout ++ printed, Raised e)
          end
      end
  end.

Definition main (argv : list string) : list line * ending :=
  if (length argv <? 2)%nat then ([], FilenameMissing)
  else files_loop (skipn 1 argv) [].

End Program.

End Main.

(** ** Reference definitions used to state the properties *)

Definition ints (l : list Z) : list pyval := map PyInt l.

Definition is_bit (b : Z) : Prop := b = 0 \/ b = 1.

Definition is_binary (v : pyval) : Prop := v = PyInt 0 \/ v = PyInt 1.

(** The digitizer after its first sample, as a scan: [prev] is the
    state left by the previous sample. *)
Fixpoint hold (threshold_low threshold_high : Q) (prev : pyval)
  (data : list Q) : list pyval :=
  match data with
  | [] => []
  | value :: rest =>
      let p := Digitizer.next_state threshold_low threshold_high prev value in
      p :: hold threshold_low threshold_high p rest
  end.

(** A qualifying clock edge at index [i], in the words of the
    specification. *)
Definition qualifying_edge (rising_edge : bool) (clock : list pyval)
  (i : nat) : bool :=
  if rising_edge then
    int_eq 1 (nth i clock PyNone) && int_eq 0 (nth (i - 1) clock PyNone)
  else
    int_eq 0 (nth i clock PyNone) && int_eq 1 (nth (i - 1) clock PyNone).

(** The indices from [1] to [len(clock) - 1] that carry a qualifying
    edge, in increasing order. *)
Definition edge_indices (rising_edge : bool) (clock : list pyval) : list nat :=
  filter (qualifying_edge rising_edge clock) (seq 1 (length clock - 1)).

(** [count] consecutive chunks of [size] elements. *)
Fixpoint chunks {A} (count size : nat) (l : list A) : list (list A) :=
  match count with
  | O => []
  | S c => firstn size l :: chunks c size (skipn size l)
  end.

(** The OR over the positions of a chunk of [bit << position], the
    first element standing at position [j]. *)
Fixpoint or_of_shifts (j : Z) (bits : list Z) : Z :=
  match bits with
  | [] => 0
  | b :: rest => Z.lor (Z.shiftl b j) (or_of_shifts (j + 1) rest)
  end.

Definition group_value (MSB_first : bool) (chunk : list Z) : Z :=
  or_of_shifts 0 (if MSB_first then rev chunk else chunk).

(** Positional binary value, least significant bit first. *)
Fixpoint lsb_value (bits : list Z) : Z :=
  match bits with
  | [] => 0
  | b :: rest => b + 2 * lsb_value rest
  end.

(** Re-expansion of an integer into [width] bits: the inverse operation
    the specification refers to (it is not part of the source). *)
Fixpoint bits_lsb_first (width : nat) (value : Z) : list Z :=
  match width with
  | O => []
  | S w => value mod 2 :: bits_lsb_first w (value / 2)
  end.

Definition expand (width : nat) (MSB_first : bool) (value : Z) : list Z :=
  if MSB_first then rev (bits_lsb_first width value)
  else bits_lsb_first width value.

(** A Python [int]. *)
Definition is_int (v : pyval) : Prop := exists n, v = PyInt n.

(** The logical complement of a digital sample; anything that is not a
    bit is left as it is. *)
Definition invert (v : pyval) : pyval :=
  match v with
  | PyInt 0 => PyInt 1
  | PyInt 1 => PyInt 0
  | _ => v
  end.

(** The indices of a table at which its digitized clock column has a
    rising edge. *)
Definition clock_edges (df : Main.dataframe) : list nat :=
  edge_indices true
    (Digitizer.convert_analog_to_digital (Main.column1 df) (4 # 5) 2).

(** The line that [main] prints for a file that does not make it raise. *)
Definition line_of (read_csv : string -> option Main.dataframe)
  (filename : string) : Main.line :=
  match read_csv filename with
  | None => Main.NotFound filename
  | Some table =>
      match Main.decode_table table with
      | Ok decoded => Main.Decoded filename decoded
      | Raise _ => Main.NotFound filename
      end
  end.

(** A file on which [main] does not raise: it cannot be read, or its
    table decodes. *)
Definition decodes (read_csv : string -> option Main.dataframe)
  (filename : string) : Prop :=
  forall table, read_csv filename = Some table ->
                exists decoded, Main.decode_table table = Ok decoded.

(** Example captures: a clock with eight rising edges that latches the
    bits of 0xA5, and a clock with a single rising edge; and a disk that
    holds one file for each. *)
Definition capture_byte : Main.dataframe :=
  [(0, 0); (3, 3); (0, 3); (3, 0); (0, 0); (3, 3); (0, 3); (3, 0);
   (0, 0); (3, 0); (0, 3); (3, 3); (0, 3); (3, 0); (0, 3); (3, 3)]%Q.

Definition capture_one_edge : Main.dataframe := [(0, 0); (3, 3)]%Q.

Definition example_disk (filename : string) : option Main.dataframe :=
  if String.eqb filename "byte.csv" then Some capture_byte
  else if String.eqb filename "edge.csv" then Some capture_one_edge
  else None.

(** A computation that raises nothing but [TypeError]. *)
Definition only_type_error {A} (r : result A) : Prop :=
  forall e, r = Raise e -> e = TypeError.

(** ** The scenarios of the specification *)

Example digitize_scenario :
  Digitizer.convert_analog_to_digital [0; 3#2; 5#2; 1; 1#2]%Q (4#5)%Q 2%Q
  = ints [0; 0; 1; 1; 0].
Proof. reflexivity. Qed.

Example latch_scenario :
  Latch.latch_data_on_sclk_to_bitstream
    (ints [0;0;1;1;0;0;1;1]) (ints [0;1;1;0;0;1;1;0]) true
  = Ok (ints [1; 1]).
Proof. reflexivity. Qed.

Example decode_scenario_msb :
  Decoder.decode_bitstream (ints [1;0;0;0;0;0;0;0]) 8 true false = Ok [PyInt 128].
Proof. reflexivity. Qed.

Example decode_scenario_lsb :
  Decoder.decode_bitstream (ints [1;0;0;0;0;0;0;0]) 8 false false = Ok [PyInt 1].
Proof. reflexivity. Qed.

Example decode_scenario_hex :
  Decoder.decode_bitstream (ints [1;0;0;0;0;0;0;0]) 8 true true
  = Ok [PyStr "0x80"].
Proof. reflexivity. Qed.

(** ** Digitizer: the loop as a scan *)

Section DigitizerLoop.
Variables threshold_low threshold_high : Q.

Let body := Digitizer.loop_body threshold_low threshold_high.

(** Once the first sample is consumed the loop appends one [hold]
    entry per sample. *)
Lemma fold_after_first (data : list Q) (out : list pyval) (prev : pyval) :
  Digitizer.data_filt
    (fold_left body data
       {| Digitizer.data_filt := out; Digitizer.previous_data := prev;
          Digitizer.first := false |})
  = out ++ hold threshold_low threshold_high prev data.
Proof.
  revert out prev.
  induction data as [|value rest IH]; intros out prev; simpl.
  - now rewrite app_nil_r.
  - unfold body at 2. unfold Digitizer.loop_body. simpl.
    rewrite IH. now rewrite <- app_assoc.
Qed.

Lemma convert_nil :
  Digitizer.convert_analog_to_digital [] threshold_low threshold_high = [].
Proof. reflexivity. Qed.

Lemma convert_cons (value : Q) (rest : list Q) :
  Digitizer.convert_analog_to_digital (value :: rest) threshold_low threshold_high
  = let p := Digitizer.first_state threshold_low threshold_high PyNone value in
    p :: hold threshold_low threshold_high p rest.
Proof.
  unfold Digitizer.convert_analog_to_digital. simpl.
  unfold Digitizer.loop_body at 2. simpl.
  fold body. now rewrite fold_after_first.
Qed.

Lemma length_hold (prev : pyval) (data : list Q) :
  length (hold threshold_low threshold_high prev data) = length data.
Proof.
  revert prev. induction data as [|v rest IH]; intros prev; simpl; auto.
Qed.

Lemma length_convert (data : list Q) :
  length (Digitizer.convert_analog_to_digital data threshold_low threshold_high)
  = length data.
Proof.
  destruct data as [|v rest]; [reflexivity|].
  rewrite convert_cons. simpl. now rewrite length_hold.
Qed.

(** Entry [i] of the scan is [next_state] applied to the entry before
    it and to sample [i]. *)
Lemma hold_step (data : list Q) :
  forall (prev : pyval) (i : nat) (a : pyval) (v : Q),
    nth_error (prev :: hold threshold_low threshold_high prev data) i = Some a ->
    nth_error data i = Some v ->
    nth_error (hold threshold_low threshold_high prev data) i
    = Some (Digitizer.next_state threshold_low threshold_high a v).
Proof.
  induction data as [|value rest IH]; intros prev i a v Ha Hv.
  - destruct i; discriminate.
  - destruct i as [|i]; simpl in *.
    + now inversion Ha; inversion Hv; subst.
    + now apply IH.
Qed.

Lemma convert_step (data : list Q) (i : nat) (a : pyval) (v : Q) :
  nth_error (Digitizer.convert_analog_to_digital data threshold_low threshold_high) i
  = Some a ->
  nth_error data (S i) = Some v ->
  nth_error (Digitizer.convert_analog_to_digital data threshold_low threshold_high) (S i)
  = Some (Digitizer.next_state threshold_low threshold_high a v).
Proof.
  destruct data as [|v0 rest]; [discriminate|].
  rewrite convert_cons. simpl. intros Ha Hv.
  now apply hold_step.
Qed.

(** [None] is absorbing for [next_state]. *)
Lemma hold_none (data : list Q) :
  hold threshold_low threshold_high PyNone data = repeat PyNone (length data).
Proof.
  induction data as [|v rest IH]; simpl; [reflexivity|].
  unfold Digitizer.next_state. simpl. rewrite !andb_false_r.
  now rewrite IH.
Qed.

(** A binary state stays binary. *)
Lemma next_state_binary (prev : pyval) (v : Q) :
  is_binary prev ->
  is_binary (Digitizer.next_state threshold_low threshold_high prev v).
Proof.
  intros Hp. unfold Digitizer.next_state.
  destruct (_ && _); [now right|].
  destruct (_ && _); [now left|exact Hp].
Qed.

Lemma hold_binary (data : list Q) :
  forall prev, is_binary prev ->
    Forall is_binary (hold threshold_low threshold_high prev data).
Proof.
  induction data as [|v rest IH]; intros prev Hp; simpl; constructor.
  - now apply next_state_binary.
  - apply IH. now apply next_state_binary.
Qed.
End DigitizerLoop.

(** ** Digitizer: properties *)

Section DigitizerProperties.
Variables threshold_low threshold_high : Q.

Abbreviation convert data :=
  (Digitizer.convert_analog_to_digital data threshold_low threshold_high).
Abbreviation next := (Digitizer.next_state threshold_low threshold_high).

Lemma ge_iff (v t : Q) : Digitizer.ge v t = true <-> (t <= v)%Q.
Proof. apply Qle_bool_iff. Qed.

Lemma le_iff (v t : Q) : Digitizer.le v t = true <-> (v <= t)%Q.
Proof. apply Qle_bool_iff. Qed.

(** The transition table of [next_state]. *)
Lemma next_from_high (v : Q) :
  next (PyInt 1) v = if Digitizer.le v threshold_low then PyInt 0 else PyInt 1.
Proof.
  unfold Digitizer.next_state. simpl.
  rewrite andb_false_r, andb_true_r. reflexivity.
Qed.

Lemma next_from_low (v : Q) :
  next (PyInt 0) v = if Digitizer.ge v threshold_high then PyInt 1 else PyInt 0.
Proof.
  unfold Digitizer.next_state. simpl.
  rewrite andb_false_r, andb_true_r.
  now destruct (Digitizer.ge v threshold_high).
Qed.

Lemma next_in_dead_band (prev : pyval) (v : Q) :
  (threshold_low < v)%Q -> (v < threshold_high)%Q -> next prev v = prev.
Proof.
  intros Hlo Hhi. unfold Digitizer.next_state.
  destruct (Digitizer.ge v threshold_high) eqn:Hge.
  { apply ge_iff in Hge. now apply Qlt_not_le in Hhi. }
  destruct (Digitizer.le v threshold_low) eqn:Hle.
  { apply le_iff in Hle. now apply Qlt_not_le in Hlo. }
  reflexivity.
Qed.

(** Every change of state is one of the two threshold crossings. *)
Lemma next_changes (prev : pyval) (v : Q) :
  next prev v <> prev ->
  (prev = PyInt 1 /\ (v <= threshold_low)%Q /\ next prev v = PyInt 0) \/
  (prev = PyInt 0 /\ (threshold_high <= v)%Q /\ next prev v = PyInt 1).
Proof.
  intros Hne. destruct prev as [|n|s].
  - exfalso. apply Hne. unfold Digitizer.next_state. simpl.
    now rewrite !andb_false_r.
  - destruct (Z.eq_dec n 1) as [->|Hn1]; [|destruct (Z.eq_dec n 0) as [->|Hn0]].
    + left. rewrite next_from_high in *.
      destruct (Digitizer.le v threshold_low) eqn:Hle; [|congruence].
      apply le_iff in Hle. auto.
    + right. rewrite next_from_low in *.
      destruct (Digitizer.ge v threshold_high) eqn:Hge; [|congruence].
      apply ge_iff in Hge. auto.
    + exfalso. apply Hne. unfold Digitizer.next_state, int_eq.
      destruct (Z.eqb_spec 0 n); [congruence|].
      destruct (Z.eqb_spec 1 n); [congruence|].
      now rewrite !andb_false_r.
  - exfalso. apply Hne. unfold Digitizer.next_state. simpl.
    now rewrite !andb_false_r.
Qed.

Lemma convert_defined (data : list Q) (i : nat) (v : Q) :
  nth_error data (S i) = Some v ->
  exists a, nth_error (convert data) i = Some a.
Proof.
  intros Hv.
  assert (Hlt : (S i < length data)%nat)
    by (apply nth_error_Some; congruence).
  destruct (nth_error (convert data) i) as [a|] eqn:Ha; [now exists a|].
  apply nth_error_None in Ha. rewrite length_convert in Ha. lia.
Qed.

(** The output is binary as soon as the first sample decides a state. *)
Lemma convert_binary_when_decided (v : Q) (rest : list Q) :
  (threshold_high <= v)%Q \/ (v <= threshold_low)%Q ->
  Forall is_binary (convert (v :: rest)).
Proof.
  intros Hdec. rewrite convert_cons. cbv zeta.
  assert (Hb : is_binary (Digitizer.first_state threshold_low threshold_high PyNone v)).
  { unfold Digitizer.first_state.
    destruct (Digitizer.ge v threshold_high) eqn:Hge; [now right|].
    destruct (Digitizer.le v threshold_low) eqn:Hle; [now left|].
    destruct Hdec as [H|H]; [apply ge_iff in H|apply le_iff in H]; congruence. }
  constructor; [exact Hb|]. now apply hold_binary.
Qed.

(** C2. Dead-band stability: with [threshold_low <= threshold_high], a
    high output stays high at the next index unless the next sample is
    [<= threshold_low], a low output stays low unless the next sample is
    [>= threshold_high], a sample strictly between the thresholds leaves
    the output unchanged, and every change of the output is one of these
    two crossings; the samples [0.0, 1.5, 2.5, 1.0, 0.5] with thresholds
    0.8 and 2.0 give [0,0,1,1,0]. *)
Theorem dead_band_stability (data : list Q)
  (Hth : (threshold_low <= threshold_high)%Q) :
  (forall (i : nat) (v : Q) (out : list pyval),
      out = Digitizer.convert_analog_to_digital data threshold_low threshold_high ->
      nth_error data (S i) = Some v ->
      (nth_error out i = Some (PyInt 1) ->
       ~ (v <= threshold_low)%Q ->
       nth_error out (S i) = Some (PyInt 1)) /\
      (nth_error out i = Some (PyInt 0) ->
       ~ (threshold_high <= v)%Q ->
       nth_error out (S i) = Some (PyInt 0)) /\
      ((threshold_low < v)%Q -> (v < threshold_high)%Q ->
       nth_error out (S i) = nth_error out i) /\
      (nth_error out (S i) <> nth_error out i ->
       (nth_error out i = Some (PyInt 1) /\
        (v <= threshold_low)%Q /\
        nth_error out (S i) = Some (PyInt 0)) \/
       (nth_error out i = Some (PyInt 0) /\
        (threshold_high <= v)%Q /\
        nth_error out (S i) = Some (PyInt 1)))) /\
  Digitizer.convert_analog_to_digital [0; 3#2; 5#2; 1; 1#2]%Q (4#5)%Q 2%Q
  = [PyInt 0; PyInt 0; PyInt 1; PyInt 1; PyInt 0].
Proof.
  split; [|reflexivity].
  intros i v out -> Hv.
  destruct (convert_defined data i v Hv) as [a Ha].
  pose proof (convert_step threshold_low threshold_high data i a v Ha Hv) as Hs.
  rewrite Ha, Hs. repeat split.
  - intros Hone Hnle. inversion Hone; subst a. rewrite next_from_high.
    destruct (Digitizer.le v threshold_low) eqn:Hle; [|reflexivity].
    apply le_iff in Hle. contradiction.
  - intros Hzero Hnge. inversion Hzero; subst a. rewrite next_from_low.
    destruct (Digitizer.ge v threshold_high) eqn:Hge; [|reflexivity].
    apply ge_iff in Hge. contradiction.
  - intros Hlo Hhi. now rewrite next_in_dead_band.
  - intros Hne.
    assert (Hne' : next a v <> a) by congruence.
    destruct (next_changes a v Hne') as [(-> & Hle & Hn)|(-> & Hge & Hn)].
    + left. now rewrite Hn.
    + right. now rewrite Hn.
Qed.

(** C9. When the first sample lies strictly between the thresholds,
    every element of the output is [None], whatever the later samples
    are: the undetermined state is absorbing. *)
Theorem undetermined_is_absorbing (data : list Q) (v : Q)
  (Hth : (threshold_low <= threshold_high)%Q)
  (Hfirst : nth_error data 0 = Some v)
  (Hlo : (threshold_low < v)%Q) (Hhi : (v < threshold_high)%Q) :
  Digitizer.convert_analog_to_digital data threshold_low threshold_high
  = repeat PyNone (length data) /\
  Forall (fun x => x = PyNone)
    (Digitizer.convert_analog_to_digital data threshold_low threshold_high) /\
  (forall i,
      (i < length data)%nat ->
      nth_error
        (Digitizer.convert_analog_to_digital data threshold_low threshold_high) i
      = Some PyNone).
Proof.
  destruct data as [|v0 rest]; [discriminate|].
  simpl in Hfirst. inversion Hfirst; subst v0.
  assert (Heq : convert (v :: rest) = repeat PyNone (length (v :: rest))).
  { rewrite convert_cons. cbv zeta.
    assert (Hf : Digitizer.first_state threshold_low threshold_high PyNone v = PyNone).
    { unfold Digitizer.first_state.
      destruct (Digitizer.ge v threshold_high) eqn:Hge.
      { apply ge_iff in Hge. now apply Qlt_not_le in Hhi. }
      destruct (Digitizer.le v threshold_low) eqn:Hle.
      { apply le_iff in Hle. now apply Qlt_not_le in Hlo. }
      reflexivity. }
    rewrite Hf, hold_none. reflexivity. }
  split; [exact Heq|]. rewrite Heq. split.
  - apply Forall_forall. intros x Hx. now apply repeat_spec in Hx.
  - intros i Hi. now apply nth_error_repeat.
Qed.
End DigitizerProperties.

(** C2, at the scenario of the specification: the output is high at
    index 2 and the sample 1.0 at index 3 is above the low threshold. *)
Lemma dead_band_stability_witness :
  (4#5 <= 2)%Q /\
  nth_error (Digitizer.convert_analog_to_digital [0; 3#2; 5#2; 1; 1#2]%Q (4#5) 2) 3
  = Some (PyInt 1).
Proof.
  assert (Hth : (4#5 <= 2)%Q) by (unfold Qle; simpl; lia).
  split; [exact Hth|].
  pose proof (dead_band_stability (4#5) 2 [0; 3#2; 5#2; 1; 1#2]%Q Hth) as [H _].
  destruct (H 2%nat 1%Q _ eq_refl eq_refl) as [H1 _].
  apply H1; [reflexivity|]. unfold Qle; simpl; lia.
Defined.

(** C9, at a capture that starts in the dead band and later crosses both
    thresholds. *)
Lemma undetermined_is_absorbing_witness :
  Digitizer.convert_analog_to_digital [3#2; 3; 0; 3]%Q (4#5) 2
  = [PyNone; PyNone; PyNone; PyNone].
Proof.
  refine (proj1 (undetermined_is_absorbing (4#5) 2 [3#2; 3; 0; 3]%Q (3#2)
                   _ eq_refl _ _)).
  - unfold Qle; simpl; lia.
  - unfold Qlt; simpl; lia.
  - unfold Qlt; simpl; lia.
Defined.

(** C6. The output always has the length of the input, but it is not
    always binary: the single sample 1.5 with thresholds 0.8 and 2.0 gives
    [[None]]. *)
Theorem digitizer_output_not_always_binary :
  (forall data lo hi,
      length (Digitizer.convert_analog_to_digital data lo hi) = length data) /\
  (4#5 <= 2)%Q /\
  Digitizer.convert_analog_to_digital [3#2]%Q (4#5) 2 = [PyNone] /\
  ~ Forall is_binary (Digitizer.convert_analog_to_digital [3#2]%Q (4#5) 2).
Proof.
  split; [intros; apply length_convert|].
  split; [unfold Qle; simpl; lia|].
  split; [reflexivity|].
  intros H. inversion H as [|x l Hx _]; subst.
  destruct Hx; discriminate.
Qed.

(** ** Python list helpers *)

Section ListHelpers.
Context {A : Type}.

Lemma getitem_nth (l : list A) (i : nat) (d : A) :
  (i < length l)%nat -> getitem l (Z.of_nat i) = Ok (nth i l d).
Proof.
  intros Hi. unfold getitem.
  destruct (Z.ltb_spec (Z.of_nat i) 0) as [Hneg|_]; [lia|].
  destruct (Z.ltb_spec (Z.of_nat i) 0) as [Hneg|_]; [lia|].
  destruct (Z.leb_spec (Z.of_nat (length l)) (Z.of_nat i)) as [Hge|_]; [lia|].
  simpl. rewrite Nat2Z.id.
  now rewrite (nth_error_nth' l d Hi).
Qed.

Lemma getitem_out_of_range (l : list A) (i : nat) :
  (length l <= i)%nat -> getitem l (Z.of_nat i) = Raise IndexError.
Proof.
  intros Hi. unfold getitem.
  destruct (Z.ltb_spec (Z.of_nat i) 0) as [Hneg|_]; [lia|].
  destruct (Z.ltb_spec (Z.of_nat i) 0) as [Hneg|_]; [lia|].
  destruct (Z.leb_spec (Z.of_nat (length l)) (Z.of_nat i)) as [_|Hlt]; [|lia].
  reflexivity.
Qed.

(** A slice with bounds inside the list is a [skipn] followed by a
    [firstn]. *)
Lemma slice_in_range (l : list A) (a n : nat) :
  (a + n <= length l)%nat ->
  slice l (Z.of_nat a) (Z.of_nat a + Z.of_nat n) = firstn n (skipn a l).
Proof.
  intros Hle. unfold slice, slice_bound.
  destruct (Z.ltb_spec (Z.of_nat a) 0) as [Hneg|_]; [lia|].
  destruct (Z.ltb_spec (Z.of_nat a + Z.of_nat n) 0) as [Hneg|_]; [lia|].
  rewrite !Z.min_l by lia.
  replace (Z.of_nat a + Z.of_nat n - Z.of_nat a) with (Z.of_nat n) by lia.
  now rewrite !Nat2Z.id.
Qed.
End ListHelpers.

Lemma map_of_nat_seq (len start offset : nat) :
  map (fun k => Z.of_nat offset + Z.of_nat k) (seq start len)
  = map Z.of_nat (seq (offset + start) len).
Proof.
  revert start. induction len as [|len IH]; intros start; simpl; [reflexivity|].
  f_equal; [lia|]. rewrite IH. now rewrite Nat.add_succ_r.
Qed.

Lemma py_range_nat (a b : nat) :
  py_range (Z.of_nat a) (Z.of_nat b) = map Z.of_nat (seq a (b - a)).
Proof.
  unfold py_range.
  replace (Z.to_nat (Z.of_nat b - Z.of_nat a)) with (b - a)%nat by lia.
  rewrite map_of_nat_seq. now rewrite Nat.add_0_r.
Qed.

Lemma StronglySorted_seq (len start : nat) :
  StronglySorted lt (seq start len).
Proof.
  revert start. induction len as [|len IH]; intros start; simpl; constructor.
  - apply IH.
  - apply Forall_forall. intros x Hx. apply in_seq in Hx. lia.
Qed.

Lemma StronglySorted_filter {A} (R : A -> A -> Prop) (f : A -> bool) (l : list A) :
  StronglySorted R l -> StronglySorted R (filter f l).
Proof.
  induction 1 as [|x l Hs IH Hx]; simpl; [constructor|].
  destruct (f x); [|exact IH].
  constructor; [exact IH|].
  apply Forall_forall. intros y Hy. apply filter_In in Hy.
  rewrite Forall_forall in Hx. now apply Hx.
Qed.

(** ** Edge latch: properties *)

Section LatchProperties.
Variables sclk_digital data_digital : list pyval.
Variable rising_edge : bool.

Abbreviation latch_body :=
  (Latch.loop_body sclk_digital data_digital rising_edge).

Lemma edge_test_nth (now before : Z) (i : nat) :
  (1 <= i < length sclk_digital)%nat ->
  Latch.edge_test sclk_digital now before (Z.of_nat i)
  = Ok (int_eq now (nth i sclk_digital PyNone) &&
        int_eq before (nth (i - 1) sclk_digital PyNone)).
Proof.
  intros Hi. unfold Latch.edge_test.
  rewrite (getitem_nth sclk_digital i PyNone) by lia. simpl.
  destruct (int_eq now (nth i sclk_digital PyNone)); [|reflexivity].
  replace (Z.of_nat i - 1) with (Z.of_nat (i - 1)) by lia.
  now rewrite (getitem_nth sclk_digital (i - 1) PyNone) by lia.
Qed.

Lemma latch_body_nth (bit_stream : list pyval) (i : nat) :
  length sclk_digital = length data_digital ->
  (1 <= i < length sclk_digital)%nat ->
  latch_body bit_stream (Z.of_nat i)
  = Ok (if qualifying_edge rising_edge sclk_digital i
        then bit_stream ++ [nth i data_digital PyNone]
        else bit_stream).
Proof.
  intros Hlen Hi. unfold Latch.loop_body, qualifying_edge.
  destruct rising_edge; rewrite edge_test_nth by exact Hi; simpl;
    (destruct (_ && _); [|reflexivity]);
    now rewrite (getitem_nth data_digital i PyNone) by lia.
Qed.

Lemma latch_loop (indices : list nat) :
  length sclk_digital = length data_digital ->
  Forall (fun i => (1 <= i < length sclk_digital)%nat) indices ->
  forall bit_stream,
    for_each latch_body (map Z.of_nat indices) bit_stream
    = Ok (bit_stream ++
          map (fun i => nth i data_digital PyNone)
            (filter (qualifying_edge rising_edge sclk_digital) indices)).
Proof.
  intros Hlen Hall.
  induction Hall as [|i rest Hi _ IH]; intros bit_stream; simpl.
  - now rewrite app_nil_r.
  - rewrite latch_body_nth by assumption. simpl.
    destruct (qualifying_edge rising_edge sclk_digital i); rewrite IH.
    + simpl. now rewrite <- app_assoc.
    + reflexivity.
Qed.

Lemma latch_equal_lengths :
  length sclk_digital = length data_digital ->
  Latch.latch_data_on_sclk_to_bitstream sclk_digital data_digital rising_edge
  = Ok (map (fun i => nth i data_digital PyNone)
          (edge_indices rising_edge sclk_digital)).
Proof.
  intros Hlen. unfold Latch.latch_data_on_sclk_to_bitstream.
  rewrite Hlen, Nat.eqb_refl. simpl. rewrite <- Hlen.
  change 1 with (Z.of_nat 1). rewrite py_range_nat.
  rewrite latch_loop; [reflexivity|exact Hlen|].
  apply Forall_forall. intros i Hi. apply in_seq in Hi. lia.
Qed.

Lemma latch_unequal_lengths :
  length sclk_digital <> length data_digital ->
  Latch.latch_data_on_sclk_to_bitstream sclk_digital data_digital rising_edge
  = Raise LengthsMustMatch.
Proof.
  intros Hlen. unfold Latch.latch_data_on_sclk_to_bitstream.
  apply Nat.eqb_neq in Hlen. now rewrite Hlen.
Qed.

Lemma edge_indices_spec (i : nat) :
  In i (edge_indices rising_edge sclk_digital) <->
  (1 <= i < length sclk_digital)%nat /\
  qualifying_edge rising_edge sclk_digital i = true.
Proof.
  unfold edge_indices. rewrite filter_In, in_seq.
  split; intros [H1 H2]; (split; [lia|exact H2]).
Qed.

Lemma edge_indices_sorted :
  StronglySorted lt (edge_indices rising_edge sclk_digital).
Proof. apply StronglySorted_filter, StronglySorted_seq. Qed.

Lemma length_edge_indices :
  (length (edge_indices rising_edge sclk_digital) <= length sclk_digital - 1)%nat.
Proof.
  unfold edge_indices.
  etransitivity; [apply filter_length_le|]. now rewrite length_seq.
Qed.
End LatchProperties.

(** ** Chunks and positional values *)

Section Chunks.
Context {A : Type}.

Lemma length_chunks (count size : nat) (l : list A) :
  length (chunks count size l) = count.
Proof.
  revert l. induction count as [|c IH]; intros l; simpl; auto.
Qed.

(** The chunks are consecutive and do not overlap: glued together they
    give the list back. *)
Lemma concat_chunks (count size : nat) :
  forall l : list A,
    (count * size = length l)%nat -> concat (chunks count size l) = l.
Proof.
  induction count as [|c IH]; intros l Hlen; simpl in *.
  - symmetry in Hlen. now apply length_zero_iff_nil in Hlen.
  - rewrite IH; [apply firstn_skipn|].
    rewrite length_skipn. lia.
Qed.

Lemma chunks_size (count size : nat) :
  forall l : list A,
    (count * size <= length l)%nat ->
    Forall (fun chunk => length chunk = size) (chunks count size l).
Proof.
  induction count as [|c IH]; intros l Hlen; simpl in *; constructor.
  - rewrite length_firstn. lia.
  - apply IH. rewrite length_skipn. lia.
Qed.
End Chunks.

Lemma lor_low_bit (b x : Z) :
  is_bit b -> 0 <= x -> Z.lor b (2 * x) = b + 2 * x.
Proof.
  intros [->| ->] Hx.
  - apply Z.lor_0_l.
  - destruct x as [|p|p]; [reflexivity|reflexivity|lia].
Qed.

Lemma lsb_value_bounds (bits : list Z) :
  Forall is_bit bits -> 0 <= lsb_value bits < 2 ^ Z.of_nat (length bits).
Proof.
  induction 1 as [|b rest Hb _ IH]; cbn [lsb_value length].
  - simpl. lia.
  - rewrite Nat2Z.inj_succ, Z.pow_succ_r by lia.
    destruct Hb as [->| ->]; lia.
Qed.

(** On bits, the OR of the shifted bits is the positional binary value:
    bit [k] of the chunk weighs [2^(j+k)]. *)
Lemma or_of_shifts_lsb_value (bits : list Z) :
  Forall is_bit bits ->
  forall j, 0 <= j -> or_of_shifts j bits = lsb_value bits * 2 ^ j.
Proof.
  induction 1 as [|b rest Hb Hrest IH]; intros j Hj; simpl; [reflexivity|].
  rewrite IH by lia.
  replace (lsb_value rest * 2 ^ (j + 1)) with (Z.shiftl (2 * lsb_value rest) j).
  - rewrite <- Z.shiftl_lor, lor_low_bit; trivial.
    + now rewrite Z.shiftl_mul_pow2.
    + now apply lsb_value_bounds.
  - rewrite Z.shiftl_mul_pow2, Z.pow_add_r by lia. lia.
Qed.

Lemma group_value_lsb_value (MSB_first : bool) (chunk : list Z) :
  Forall is_bit chunk ->
  group_value MSB_first chunk
  = lsb_value (if MSB_first then rev chunk else chunk).
Proof.
  intros Hbits. unfold group_value.
  rewrite or_of_shifts_lsb_value; [lia| |lia].
  destruct MSB_first; [|exact Hbits].
  apply Forall_forall. intros x Hx. apply in_rev in Hx.
  rewrite Forall_forall in Hbits. now apply Hbits.
Qed.

Lemma length_bits_lsb_first (width : nat) :
  forall value, length (bits_lsb_first width value) = width.
Proof. induction width as [|w IH]; intros value; simpl; auto. Qed.

Lemma bits_lsb_first_are_bits (width : nat) :
  forall value, Forall is_bit (bits_lsb_first width value).
Proof.
  induction width as [|w IH]; intros value; simpl; constructor; [|apply IH].
  unfold is_bit. pose proof (Z.mod_pos_bound value 2). lia.
Qed.

(** Expanding the value of a list of bits gives the list back. *)
Lemma bits_lsb_first_lsb_value (bits : list Z) :
  Forall is_bit bits -> bits_lsb_first (length bits) (lsb_value bits) = bits.
Proof.
  induction 1 as [|b rest Hb _ IH]; cbn [bits_lsb_first lsb_value length];
    [reflexivity|].
  pose proof (Z.div_mod (b + 2 * lsb_value rest) 2 ltac:(lia)) as Hdm.
  pose proof (Z.mod_pos_bound (b + 2 * lsb_value rest) 2 ltac:(lia)) as Hbd.
  assert (Hmod : (b + 2 * lsb_value rest) mod 2 = b)
    by (destruct Hb as [->| ->]; lia).
  assert (Hdiv : (b + 2 * lsb_value rest) / 2 = lsb_value rest)
    by (destruct Hb as [->| ->]; lia).
  now rewrite Hmod, Hdiv, IH.
Qed.

(** The value of the expansion of a number below [2^width] is that
    number. *)
Lemma lsb_value_bits_lsb_first (width : nat) :
  forall value, 0 <= value < 2 ^ Z.of_nat width ->
    lsb_value (bits_lsb_first width value) = value.
Proof.
  induction width as [|w IH]; intros value Hv; cbn [bits_lsb_first lsb_value].
  - simpl in Hv. lia.
  - rewrite Nat2Z.inj_succ, Z.pow_succ_r in Hv by lia.
    rewrite IH.
    + pose proof (Z.div_mod value 2). lia.
    + split; [apply Z.div_pos; lia|].
      apply Z.div_lt_upper_bound; lia.
Qed.

(** ** Decoder: the loops *)

Lemma accumulate_from (bits : list Z) :
  forall (k : nat) (number : Z),
    for_each
      (fun number jb =>
         b <- Decoder.lshift (snd jb) (fst jb) ;; Ok (Z.lor number b))
      (combine (map Z.of_nat (seq k (length bits))) (ints bits)) number
    = Ok (Z.lor number (or_of_shifts (Z.of_nat k) bits)).
Proof.
  induction bits as [|b rest IH]; intros k number; simpl.
  - now rewrite Z.lor_0_r.
  - rewrite IH. rewrite Nat2Z.inj_succ, <- Z.add_1_r.
    now rewrite Z.lor_assoc.
Qed.

Lemma accumulate_ints (bits : list Z) :
  Decoder.accumulate (ints bits) = Ok (or_of_shifts 0 bits).
Proof.
  unfold Decoder.accumulate, enumerate.
  replace (length (ints bits)) with (length bits)
    by (unfold ints; now rewrite length_map).
  rewrite accumulate_from. now rewrite Z.lor_0_l.
Qed.

(** A bit that is not an integer makes the inner loop raise. *)
Lemma accumulate_none (rest : list pyval) :
  Decoder.accumulate (PyNone :: rest) = Raise TypeError.
Proof. reflexivity. Qed.

Section DecoderLoop.
Variable bits : list Z.
Variable size : nat.
Variables MSB_first hexadecimal : bool.

Abbreviation decode_body :=
  (Decoder.loop_body (ints bits) (Z.of_nat size) MSB_first hexadecimal).
Abbreviation decoded chunk :=
  (Decoder.emit hexadecimal (group_value MSB_first chunk)).

Lemma decode_body_chunk (grouped_stream : list pyval) (i : nat) :
  (i * size + size <= length bits)%nat ->
  decode_body grouped_stream (Z.of_nat i)
  = Ok (grouped_stream ++ [decoded (firstn size (skipn (i * size) bits))]).
Proof.
  intros Hle. unfold Decoder.loop_body.
  replace (Z.of_nat i * Z.of_nat size) with (Z.of_nat (i * size)) by lia.
  rewrite (Z.add_comm (Z.of_nat size)).
  rewrite slice_in_range
    by (unfold ints; rewrite length_map; exact Hle).
  unfold ints. rewrite skipn_map, firstn_map, <- map_rev.
  replace (if MSB_first
           then map PyInt (rev (firstn size (skipn (i * size) bits)))
           else map PyInt (firstn size (skipn (i * size) bits)))
    with (ints (if MSB_first then rev (firstn size (skipn (i * size) bits))
                else firstn size (skipn (i * size) bits)))
    by now destruct MSB_first.
  rewrite accumulate_ints. reflexivity.
Qed.

Lemma decode_loop (count : nat) :
  forall (k : nat) (grouped_stream : list pyval),
    ((k + count) * size <= length bits)%nat ->
    for_each decode_body (map Z.of_nat (seq k count)) grouped_stream
    = Ok (grouped_stream ++
          map (fun chunk => decoded chunk)
            (chunks count size (skipn (k * size) bits))).
Proof.
  induction count as [|c IH]; intros k grouped_stream Hle; simpl.
  - now rewrite app_nil_r.
  - rewrite decode_body_chunk by lia. simpl.
    rewrite IH by lia. rewrite <- app_assoc. simpl.
    rewrite skipn_skipn. reflexivity.
Qed.

(** With a positive group size that divides the length, the decoder
    returns the decoded chunks in their order. *)
Lemma decode_divisible :
  (0 < size)%nat ->
  Z.of_nat (length bits) mod Z.of_nat size = 0 ->
  Decoder.decode_bitstream (ints bits) (Z.of_nat size) MSB_first hexadecimal
  = Ok (map (fun chunk => decoded chunk)
          (chunks (length bits / size) size bits)).
Proof.
  intros Hpos Hmod. unfold Decoder.decode_bitstream.
  replace (length (ints bits)) with (length bits)
    by (unfold ints; now rewrite length_map).
  destruct (Z.eqb_spec (Z.of_nat size) 0) as [H0|_]; [lia|].
  rewrite Hmod. simpl negb. cbv iota.
  rewrite Z.quot_div_nonneg by lia.
  rewrite <- Nat2Z.inj_div.
  change 0 with (Z.of_nat 0). rewrite py_range_nat, Nat.sub_0_r.
  rewrite decode_loop; [reflexivity|].
  simpl. rewrite Nat.mul_comm. apply Nat.Div0.mul_div_le.
Qed.
End DecoderLoop.

(** The two checks the decoder makes before it decodes anything. *)
Lemma decode_zero_group (bitstream : list pyval) (MSB_first hexadecimal : bool) :
  Decoder.decode_bitstream bitstream 0 MSB_first hexadecimal
  = Raise ZeroDivisionError.
Proof. reflexivity. Qed.

Lemma decode_indivisible (bitstream : list pyval) (group_by : Z)
  (MSB_first hexadecimal : bool) :
  group_by <> 0 ->
  Z.of_nat (length bitstream) mod group_by <> 0 ->
  Decoder.decode_bitstream bitstream group_by MSB_first hexadecimal
  = Raise (CannotGroup group_by (Z.of_nat (length bitstream))).
Proof.
  intros Hg Hmod. unfold Decoder.decode_bitstream.
  destruct (Z.eqb_spec group_by 0) as [H0|_]; [contradiction|].
  destruct (Z.eqb_spec (Z.of_nat (length bitstream) mod group_by) 0)
    as [H0|_]; [contradiction|].
  reflexivity.
Qed.

Lemma mod_of_nat (a b : nat) :
  Z.of_nat a mod Z.of_nat b = 0 -> (0 < b)%nat -> (a / b * b = a)%nat.
Proof.
  intros Hmod Hb.
  rewrite <- Nat2Z.inj_mod in Hmod.
  pose proof (Nat.div_mod_eq a b). lia.
Qed.

(** ** Edge latch: the claims *)

(** C1. For clock and data of equal length the latch returns exactly the
    values [data[i]] at the indices [i] from 1 to [len(clock) - 1] that
    carry a qualifying edge (rising: [clock[i] == 1] and
    [clock[i-1] == 0]; falling: [clock[i] == 0] and [clock[i-1] == 1]), in
    increasing index order; index 0 never contributes; the output has as
    many elements as there are qualifying edges; the clock
    [0,0,1,1,0,0,1,1] with data [0,1,1,0,0,1,1,0] and rising edges gives
    [1,1], latched at indices 2 and 6. *)
Theorem latch_returns_data_at_edges (clock data : list pyval)
  (rising_edge : bool) (Hlen : length clock = length data) :
  (exists out,
      Latch.latch_data_on_sclk_to_bitstream clock data rising_edge = Ok out /\
      out = map (fun i => nth i data PyNone) (edge_indices rising_edge clock) /\
      length out = length (edge_indices rising_edge clock)) /\
  (forall i, In i (edge_indices rising_edge clock) <->
             (1 <= i < length clock)%nat /\
             if rising_edge
             then nth i clock PyNone = PyInt 1 /\ nth (i - 1) clock PyNone = PyInt 0
             else nth i clock PyNone = PyInt 0 /\ nth (i - 1) clock PyNone = PyInt 1) /\
  StronglySorted lt (edge_indices rising_edge clock) /\
  ~ In 0%nat (edge_indices rising_edge clock) /\
  edge_indices true (ints [0;0;1;1;0;0;1;1]) = [2; 6]%nat /\
  Latch.latch_data_on_sclk_to_bitstream
    (ints [0;0;1;1;0;0;1;1]) (ints [0;1;1;0;0;1;1;0]) true
  = Ok [PyInt 1; PyInt 1].
Proof.
  split; [|split; [|split; [|split; [|split; reflexivity]]]].
  - eexists. split; [now apply latch_equal_lengths|].
    split; [reflexivity|apply length_map].
  - intros i. rewrite edge_indices_spec. unfold qualifying_edge, int_eq.
    split; intros [Hi He]; (split; [exact Hi|]).
    + destruct rising_edge; apply andb_true_iff in He as [H1 H2];
        destruct (nth i clock PyNone), (nth (i - 1) clock PyNone);
        try discriminate;
        apply Z.eqb_eq in H1, H2; subst; now split.
    + destruct rising_edge; destruct He as [-> ->]; reflexivity.
  - apply edge_indices_sorted.
  - rewrite edge_indices_spec. lia.
Qed.

Lemma latch_returns_data_at_edges_witness :
  exists out,
    Latch.latch_data_on_sclk_to_bitstream
      (ints [1;0;0;1;0]) (ints [1;1;0;1;0]) false = Ok out /\
    out = map (fun i => nth i (ints [1;1;0;1;0]) PyNone)
            (edge_indices false (ints [1;0;0;1;0])) /\
    length out = length (edge_indices false (ints [1;0;0;1;0])).
Proof.
  exact (proj1 (latch_returns_data_at_edges
                  (ints [1;0;0;1;0]) (ints [1;1;0;1;0]) false eq_refl)).
Defined.

(** C5. The latch raises the length-mismatch error exactly when the two
    lengths differ; it then returns no bit stream at all, and the check
    comes before the scan (the error is never the [IndexError] a scan of
    a shorter data list would hit); with equal lengths it never raises. *)
Theorem latch_length_mismatch (clock data : list pyval) (rising_edge : bool) :
  (Latch.latch_data_on_sclk_to_bitstream clock data rising_edge
   = Raise LengthsMustMatch <-> length clock <> length data) /\
  (length clock <> length data ->
   forall out,
     Latch.latch_data_on_sclk_to_bitstream clock data rising_edge <> Ok out) /\
  (length clock = length data ->
   exists out,
     Latch.latch_data_on_sclk_to_bitstream clock data rising_edge = Ok out).
Proof.
  split; [split|split].
  - intros Hraise Heq.
    rewrite latch_equal_lengths in Hraise by exact Heq. discriminate.
  - apply latch_unequal_lengths.
  - intros Hne out. rewrite latch_unequal_lengths by exact Hne. discriminate.
  - intros Heq. eexists. now apply latch_equal_lengths.
Qed.

Lemma latch_length_mismatch_witness :
  (forall out,
      Latch.latch_data_on_sclk_to_bitstream (ints [0;1;0;1]) (ints [1]) true
      <> Ok out) /\
  (exists out,
      Latch.latch_data_on_sclk_to_bitstream (ints [0;1]) (ints [1;1]) true
      = Ok out).
Proof.
  split.
  - apply (proj1 (proj2 (latch_length_mismatch
                           (ints [0;1;0;1]) (ints [1]) true))).
    simpl. lia.
  - apply (proj2 (proj2 (latch_length_mismatch
                           (ints [0;1]) (ints [1;1]) true))).
    reflexivity.
Defined.

(** C8, as stated, fails on the empty capture: the bit stream is empty,
    and its length 0 is not at most [len(clock) - 1 = -1]. *)
Lemma latch_bound_fails_on_empty :
  ~ (forall out,
        Latch.latch_data_on_sclk_to_bitstream [] [] true = Ok out ->
        Z.of_nat (length out) <= Z.of_nat (length (@nil pyval)) - 1).
Proof.
  intros H. specialize (H [] eq_refl). simpl in H. lia.
Qed.

(** C8, amended. For clock and data of equal length and either edge
    direction the latch returns a bit stream; for a non-empty clock its
    length is at most [len(clock) - 1], and for an empty clock it is
    empty. *)
Theorem latch_length_bound (clock data : list pyval) (rising_edge : bool)
  (Hlen : length clock = length data) :
  exists out,
    Latch.latch_data_on_sclk_to_bitstream clock data rising_edge = Ok out /\
    (clock <> [] -> Z.of_nat (length out) <= Z.of_nat (length clock) - 1) /\
    (clock = [] -> out = []).
Proof.
  eexists. split; [now apply latch_equal_lengths|].
  pose proof (length_edge_indices clock rising_edge) as Hle.
  split.
  - intros Hne. rewrite length_map.
    destruct clock as [|c rest]; [contradiction|]. simpl length in *. lia.
  - intros ->. reflexivity.
Qed.

Lemma latch_length_bound_witness :
  exists out,
    Latch.latch_data_on_sclk_to_bitstream
      (ints [0;1;0;1]) (ints [1;1;0;0]) true = Ok out /\
    Z.of_nat (length out) <= 4 - 1.
Proof.
  destruct (latch_length_bound (ints [0;1;0;1]) (ints [1;1;0;0]) true eq_refl)
    as (out & Hout & Hbound & _).
  exists out. split; [exact Hout|].
  apply Hbound. discriminate.
Defined.

(** ** Decoder: the claims *)

Lemma chunks_Forall {A} (P : A -> Prop) (count size : nat) :
  forall l, Forall P l -> Forall (Forall P) (chunks count size l).
Proof.
  induction count as [|c IH]; intros l Hl; simpl; constructor.
  - rewrite <- (firstn_skipn size l) in Hl. now apply Forall_app in Hl.
  - apply IH. rewrite <- (firstn_skipn size l) in Hl. now apply Forall_app in Hl.
Qed.

Lemma decode_single_chunk (chunk : list Z) (MSB_first hexadecimal : bool) :
  chunk <> [] ->
  Decoder.decode_bitstream (ints chunk) (Z.of_nat (length chunk))
    MSB_first hexadecimal
  = Ok [Decoder.emit hexadecimal (group_value MSB_first chunk)].
Proof.
  intros Hne.
  assert (Hpos : (0 < length chunk)%nat).
  { destruct chunk; [contradiction|simpl; lia]. }
  rewrite decode_divisible; [|exact Hpos|apply Z_mod_same_full].
  rewrite Nat.div_same by lia. simpl.
  now rewrite firstn_all.
Qed.

Lemma for_each_only_type_error {A S} (body : S -> A -> result S)
  (items : list A) :
  (forall s x, only_type_error (body s x)) ->
  forall s, only_type_error (for_each body items s).
Proof.
  intros Hbody. induction items as [|x rest IH]; intros s e; simpl.
  - discriminate.
  - destruct (body s x) as [s'|e'] eqn:Hb; simpl.
    + apply IH.
    + intros He. inversion He; subst. now apply (Hbody s x).
Qed.

Lemma decode_loop_only_type_error (bitstream : list pyval) (group_by : Z)
  (MSB_first hexadecimal : bool) (indices : list Z) (acc : list pyval) :
  only_type_error
    (for_each (Decoder.loop_body bitstream group_by MSB_first hexadecimal)
       indices acc).
Proof.
  apply for_each_only_type_error. intros s i e.
  unfold Decoder.loop_body.
  destruct (Decoder.accumulate _) as [n|e'] eqn:Hacc; simpl; [discriminate|].
  intros He. inversion He; subst e'.
  revert Hacc. unfold Decoder.accumulate.
  apply for_each_only_type_error. intros number [j bit] e'.
  destruct bit; simpl; congruence.
Qed.

(** C3. For bits whose length is a positive multiple of [group_by] the
    decoder cuts the stream into consecutive chunks of [group_by] bits
    that do not overlap and keep the original order, and returns, in
    chunk order, for each chunk the OR over [j] of [bit_j << j], taken
    over the reversed chunk when [MSB_first] is set (so that the first
    element of the chunk is the most significant bit) and over the chunk
    itself otherwise; the stream [1,0,0,0,0,0,0,0] in groups of 8 gives
    0x80 MSB-first and 0x01 LSB-first. *)
Theorem decode_partitions_and_weighs (bits : list Z) (group_by : Z)
  (MSB_first hexadecimal : bool)
  (Hbits : Forall is_bit bits)
  (Hlen : exists m, 0 < m /\ Z.of_nat (length bits) = m * group_by)
  (Hgroup : 0 < group_by) :
  (exists groups : list (list Z),
      concat groups = bits /\
      Forall (fun chunk => Z.of_nat (length chunk) = group_by) groups /\
      Decoder.decode_bitstream (ints bits) group_by MSB_first hexadecimal
      = Ok (map (fun chunk =>
                   Decoder.emit hexadecimal
                     (or_of_shifts 0 (if MSB_first then rev chunk else chunk)))
              groups) /\
      Forall (fun chunk =>
                or_of_shifts 0 (if MSB_first then rev chunk else chunk)
                = lsb_value (if MSB_first then rev chunk else chunk))
        groups) /\
  Decoder.decode_bitstream (ints [1;0;0;0;0;0;0;0]) 8 true false
  = Ok [PyInt 128] /\
  Decoder.decode_bitstream (ints [1;0;0;0;0;0;0;0]) 8 false false
  = Ok [PyInt 1] /\
  Decoder.decode_bitstream (ints [1;0;0;0;0;0;0;0]) 8 true true
  = Ok [PyStr "0x80"].
Proof.
  split; [|repeat split].
  destruct Hlen as (m & Hm & Hmul).
  set (size := Z.to_nat group_by).
  assert (Hsize : group_by = Z.of_nat size) by (unfold size; lia).
  assert (Hmod : Z.of_nat (length bits) mod Z.of_nat size = 0).
  { rewrite <- Hsize, Hmul. apply Z_mod_mult. }
  assert (Hdiv : (length bits / size * size = length bits)%nat).
  { apply mod_of_nat; [exact Hmod|lia]. }
  exists (chunks (length bits / size) size bits).
  split; [now apply concat_chunks|].
  split.
  { eapply Forall_impl; [|apply chunks_size; lia].
    intros chunk Hc. simpl in Hc. lia. }
  split.
  { rewrite Hsize. apply decode_divisible; [lia|exact Hmod]. }
  eapply Forall_impl; [|apply chunks_Forall; exact Hbits].
  intros chunk Hc. apply (group_value_lsb_value MSB_first chunk Hc).
Qed.

Lemma decode_partitions_and_weighs_witness :
  exists groups : list (list Z),
    concat groups = [1;0;1;1; 0;0;1;0] /\
    Forall (fun chunk => Z.of_nat (length chunk) = 4) groups /\
    Decoder.decode_bitstream (ints [1;0;1;1; 0;0;1;0]) 4 true false
    = Ok (map (fun chunk => Decoder.emit false (or_of_shifts 0 (rev chunk)))
            groups) /\
    Forall (fun chunk => or_of_shifts 0 (rev chunk) = lsb_value (rev chunk))
      groups.
Proof.
  refine (proj1 (decode_partitions_and_weighs [1;0;1;1; 0;0;1;0] 4 true false
                   _ _ _)).
  - repeat constructor; (now left) || (now right).
  - exists 2. split; [lia|reflexivity].
  - lia.
Defined.

(** C4, as stated, fails for group sizes that are not positive.  With
    [group_by = -2] the length 2 divides evenly, the decoder returns
    normally, but with no value at all instead of [2 / -2 = -1] values;
    with [group_by = 0] the remainder itself raises [ZeroDivisionError],
    which is neither the indivisible-stream error nor a normal return. *)
Lemma decode_group_size_not_positive :
  ~ (Z.of_nat (length [1; 0]) mod (-2) = 0 ->
     exists out,
       Decoder.decode_bitstream (ints [1; 0]) (-2) true false = Ok out /\
       Z.of_nat (length out) = Z.of_nat (length [1; 0]) / (-2)) /\
  Decoder.decode_bitstream (ints [1; 0]) (-2) true false = Ok [] /\
  Decoder.decode_bitstream (ints [1; 0]) 0 true false = Raise ZeroDivisionError.
Proof.
  split; [|split; reflexivity].
  intros H. destruct (H eq_refl) as (out & Hout & Hlen).
  inversion Hout; subst out. discriminate Hlen.
Qed.

(** C4, amended. For every positive group size: the decoder raises the
    indivisible-stream error exactly when [len(bits) % group_by != 0],
    whatever the stream holds, and then returns no decoded value; when
    the length of a stream of bits divides evenly it returns normally
    with exactly [len(bits) / group_by] values. *)
Theorem decode_indivisible_error (bitstream : list pyval) (bits : list Z)
  (group_by : Z) (MSB_first hexadecimal : bool) (Hgroup : 0 < group_by) :
  (Decoder.decode_bitstream bitstream group_by MSB_first hexadecimal
   = Raise (CannotGroup group_by (Z.of_nat (length bitstream)))
   <-> Z.of_nat (length bitstream) mod group_by <> 0) /\
  (Z.of_nat (length bitstream) mod group_by <> 0 ->
   forall out,
     Decoder.decode_bitstream bitstream group_by MSB_first hexadecimal
     <> Ok out) /\
  (Z.of_nat (length bits) mod group_by = 0 ->
   exists out,
     Decoder.decode_bitstream (ints bits) group_by MSB_first hexadecimal
     = Ok out /\
     Z.of_nat (length out) = Z.of_nat (length bits) / group_by).
Proof.
  split; [split|split].
  - intros Hraise Hmod. revert Hraise. unfold Decoder.decode_bitstream.
    destruct (Z.eqb_spec group_by 0) as [H0|_]; [lia|].
    rewrite Hmod. simpl. intros Hraise.
    apply decode_loop_only_type_error in Hraise. discriminate.
  - intros Hmod. apply decode_indivisible; [lia|exact Hmod].
  - intros Hmod out. rewrite decode_indivisible by (lia || exact Hmod).
    discriminate.
  - intros Hmod.
    set (size := Z.to_nat group_by).
    assert (Hsize : group_by = Z.of_nat size) by (unfold size; lia).
    rewrite Hsize in *. eexists. split.
    + apply decode_divisible; [lia|exact Hmod].
    + rewrite length_map, length_chunks. apply Nat2Z.inj_div.
Qed.

Lemma decode_indivisible_error_witness :
  (forall out,
      Decoder.decode_bitstream [PyInt 1; PyNone; PyInt 0] 2 true true
      <> Ok out) /\
  (exists out,
      Decoder.decode_bitstream (ints [1; 0; 1; 1]) 2 true true = Ok out /\
      Z.of_nat (length out) = 2).
Proof.
  split.
  - apply (proj1 (proj2 (decode_indivisible_error
                           [PyInt 1; PyNone; PyInt 0] [] 2 true true
                           ltac:(lia)))).
    discriminate.
  - apply (proj2 (proj2 (decode_indivisible_error
                           [] [1; 0; 1; 1] 2 true true ltac:(lia)))).
    reflexivity.
Defined.

(** C10. For bits whose length is a multiple of a positive [group_by],
    with [hexadecimal=False] the decoder returns integers, one per group,
    each in the range [0 <= value < 2^group_by], for both bit orders. *)
Theorem decode_values_in_range (bits : list Z) (group_by : Z)
  (MSB_first : bool)
  (Hbits : Forall is_bit bits)
  (Hgroup : 0 < group_by)
  (Hlen : Z.of_nat (length bits) mod group_by = 0) :
  exists values : list Z,
    Decoder.decode_bitstream (ints bits) group_by MSB_first false
    = Ok (ints values) /\
    Z.of_nat (length values) = Z.of_nat (length bits) / group_by /\
    Forall (fun value => 0 <= value < 2 ^ group_by) values.
Proof.
  set (size := Z.to_nat group_by).
  assert (Hsize : group_by = Z.of_nat size) by (unfold size; lia).
  rewrite Hsize in *.
  assert (Hdiv : (length bits / size * size = length bits)%nat).
  { apply mod_of_nat; [exact Hlen|lia]. }
  exists (map (group_value MSB_first) (chunks (length bits / size) size bits)).
  split; [|split].
  - rewrite decode_divisible by (lia || exact Hlen).
    unfold ints. now rewrite map_map.
  - rewrite length_map, length_chunks. apply Nat2Z.inj_div.
  - apply Forall_map.
    pose proof (chunks_Forall is_bit (length bits / size) size bits Hbits) as Hcb.
    pose proof (chunks_size (length bits / size) size bits ltac:(lia)) as Hcs.
    rewrite Forall_forall in *. intros chunk Hin.
    rewrite group_value_lsb_value by (now apply Hcb).
    assert (Hrev : Forall is_bit (if MSB_first then rev chunk else chunk)).
    { destruct MSB_first; [|now apply Hcb].
      apply Forall_forall. intros x Hx. apply in_rev in Hx.
      specialize (Hcb chunk Hin). rewrite Forall_forall in Hcb. now apply Hcb. }
    pose proof (lsb_value_bounds _ Hrev) as Hb.
    replace (length (if MSB_first then rev chunk else chunk)) with size in Hb.
    + exact Hb.
    + destruct MSB_first; [rewrite length_rev|]; symmetry; now apply Hcs.
Qed.

Lemma decode_values_in_range_witness :
  exists values : list Z,
    Decoder.decode_bitstream (ints [1;1;1; 0;1;0]) 3 false false
    = Ok (ints values) /\
    Z.of_nat (length values) = Z.of_nat (length [1;1;1; 0;1;0]) / 3 /\
    Forall (fun value => 0 <= value < 2 ^ 3) values.
Proof.
  refine (decode_values_in_range [1;1;1; 0;1;0] 3 false _ _ _).
  - repeat constructor; (now left) || (now right).
  - lia.
  - reflexivity.
Defined.

(** C7. On single well-formed chunks decoding is invertible, for both bit
    orders: a chunk of [group_by] bits decodes (with [hexadecimal=False])
    to one integer below [2^group_by] whose re-expansion into [group_by]
    bits, in the same bit order, is the chunk; and every integer of
    [0 <= value < 2^group_by] is the decoding of its expansion.  Decoding
    of single chunks is thus a bijection onto that range. *)
Theorem decode_expand_inverse (group_by : Z) (MSB_first : bool)
  (Hgroup : 0 < group_by) :
  (forall chunk : list Z,
      Forall is_bit chunk ->
      Z.of_nat (length chunk) = group_by ->
      exists value,
        Decoder.decode_bitstream (ints chunk) group_by MSB_first false
        = Ok [PyInt value] /\
        0 <= value < 2 ^ group_by /\
        expand (Z.to_nat group_by) MSB_first value = chunk) /\
  (forall value : Z,
      0 <= value < 2 ^ group_by ->
      Forall is_bit (expand (Z.to_nat group_by) MSB_first value) /\
      Z.of_nat (length (expand (Z.to_nat group_by) MSB_first value)) = group_by /\
      Decoder.decode_bitstream
        (ints (expand (Z.to_nat group_by) MSB_first value))
        group_by MSB_first false
      = Ok [PyInt value]).
Proof.
  split.
  - intros chunk Hbits Hlen.
    assert (Hne : chunk <> []) by (intros ->; simpl in Hlen; lia).
    exists (group_value MSB_first chunk).
    rewrite <- Hlen, Nat2Z.id.
    split; [now apply decode_single_chunk|].
    rewrite group_value_lsb_value by exact Hbits.
    assert (Hrev : Forall is_bit (if MSB_first then rev chunk else chunk)).
    { destruct MSB_first; [|exact Hbits].
      apply Forall_forall. intros x Hx. apply in_rev in Hx.
      rewrite Forall_forall in Hbits. now apply Hbits. }
    assert (Hlr : length (if MSB_first then rev chunk else chunk) = length chunk)
      by (destruct MSB_first; [apply length_rev|reflexivity]).
    split.
    + rewrite <- Hlr. now apply lsb_value_bounds.
    + unfold expand. destruct MSB_first.
      * rewrite <- (length_rev chunk).
        rewrite bits_lsb_first_lsb_value by exact Hrev.
        apply rev_involutive.
      * now apply bits_lsb_first_lsb_value.
  - intros value Hv.
    set (size := Z.to_nat group_by).
    assert (Hsize : group_by = Z.of_nat size) by (unfold size; lia).
    assert (Hwidth : length (expand size MSB_first value) = size).
    { unfold expand. destruct MSB_first; [rewrite length_rev|];
        apply length_bits_lsb_first. }
    assert (Hbits : Forall is_bit (expand size MSB_first value)).
    { unfold expand. destruct MSB_first; [|apply bits_lsb_first_are_bits].
      apply Forall_forall. intros x Hx. apply in_rev in Hx.
      pose proof (bits_lsb_first_are_bits size value) as Hb.
      rewrite Forall_forall in Hb. now apply Hb. }
    split; [exact Hbits|]. split; [lia|].
    rewrite Hsize at 1. rewrite <- Hwidth at 2.
    rewrite decode_single_chunk.
    + simpl. rewrite group_value_lsb_value by exact Hbits.
      unfold expand. do 3 f_equal.
      replace (if MSB_first
               then rev (if MSB_first then rev (bits_lsb_first size value)
                         else bits_lsb_first size value)
               else (if MSB_first then rev (bits_lsb_first size value)
                     else bits_lsb_first size value))
        with (bits_lsb_first size value)
        by (destruct MSB_first; [now rewrite rev_involutive|reflexivity]).
      apply lsb_value_bits_lsb_first. now rewrite <- Hsize.
    + intros Hnil. rewrite Hnil in Hwidth. simpl in Hwidth. lia.
Qed.

Lemma decode_expand_inverse_witness :
  (exists value,
      Decoder.decode_bitstream (ints [1;1;0;1;0;0;0;0]) 8 true false
      = Ok [PyInt value] /\
      0 <= value < 2 ^ 8 /\
      expand (Z.to_nat 8) true value = [1;1;0;1;0;0;0;0]) /\
  Decoder.decode_bitstream (ints (expand (Z.to_nat 8) true 208)) 8 true false
  = Ok [PyInt 208].
Proof.
  pose proof (decode_expand_inverse 8 true ltac:(lia)) as [Hfwd Hbwd].
  split.
  - apply Hfwd; [|reflexivity].
    repeat constructor; (now left) || (now right).
  - apply Hbwd. lia.
Defined.

(** ** Digitizer: further properties *)

Section DigitizerFurther.
Variables threshold_low threshold_high : Q.

Abbreviation digitize data :=
  (Digitizer.convert_analog_to_digital data threshold_low threshold_high).

Lemma firstn_hold (n : nat) :
  forall prev data,
    firstn n (hold threshold_low threshold_high prev data)
    = hold threshold_low threshold_high prev (firstn n data).
Proof.
  induction n as [|n IH]; intros prev data; [reflexivity|].
  destruct data as [|v rest]; simpl; [reflexivity|].
  now rewrite IH.
Qed.

(** The output up to an index depends on the samples up to that index
    only: digitizing a prefix of the capture gives the prefix of the
    digitized capture. *)
Theorem digitizer_is_causal (data : list Q) (n : nat) :
  firstn n (Digitizer.convert_analog_to_digital data threshold_low threshold_high)
  = Digitizer.convert_analog_to_digital (firstn n data)
      threshold_low threshold_high.
Proof.
  destruct n as [|n]; [reflexivity|].
  destruct data as [|v rest]; [reflexivity|].
  simpl firstn at 2. rewrite !convert_cons. cbv zeta. simpl.
  now rewrite firstn_hold.
Qed.

Lemma first_state_decided (v : Q) :
  (threshold_high <= v)%Q \/ (v <= threshold_low)%Q ->
  is_binary (Digitizer.first_state threshold_low threshold_high PyNone v).
Proof.
  intros Hdec. unfold Digitizer.first_state.
  destruct (Digitizer.ge v threshold_high) eqn:Hge; [now right|].
  destruct (Digitizer.le v threshold_low) eqn:Hle; [now left|].
  destruct Hdec as [H|H];
    [apply (ge_iff v threshold_high) in H|apply (le_iff v threshold_low) in H];
    congruence.
Qed.

Lemma first_state_undecided (v : Q) :
  ~ ((threshold_high <= v)%Q \/ (v <= threshold_low)%Q) ->
  Digitizer.first_state threshold_low threshold_high PyNone v = PyNone.
Proof.
  intros Hnot. unfold Digitizer.first_state.
  destruct (Digitizer.ge v threshold_high) eqn:Hge.
  { exfalso. apply Hnot. left. now apply ge_iff. }
  destruct (Digitizer.le v threshold_low) eqn:Hle.
  { exfalso. apply Hnot. right. now apply le_iff. }
  reflexivity.
Qed.

(** The output is all digits or all [None], and the first sample alone
    decides which: the elements are 0 or 1 exactly when the first sample
    is at or beyond one of the thresholds, and they are all [None]
    exactly when it is not. *)
Theorem digitizer_binary_or_undetermined (data : list Q) (v : Q)
  (Hfirst : nth_error data 0 = Some v) :
  (Forall is_binary
     (Digitizer.convert_analog_to_digital data threshold_low threshold_high)
   <-> (threshold_high <= v)%Q \/ (v <= threshold_low)%Q) /\
  (Digitizer.convert_analog_to_digital data threshold_low threshold_high
   = repeat PyNone (length data)
   <-> ~ ((threshold_high <= v)%Q \/ (v <= threshold_low)%Q)).
Proof.
  destruct data as [|v0 rest]; [discriminate|].
  simpl in Hfirst. inversion Hfirst; subst v0. clear Hfirst.
  rewrite convert_cons. cbv zeta.
  set (p := Digitizer.first_state threshold_low threshold_high PyNone v).
  assert (Hcases :
            ((threshold_high <= v)%Q \/ (v <= threshold_low)%Q) \/
            ~ ((threshold_high <= v)%Q \/ (v <= threshold_low)%Q)).
  { destruct (Qlt_le_dec v threshold_high) as [Hlt|Hge]; [|now left; left].
    destruct (Qlt_le_dec threshold_low v) as [Hgt|Hle]; [|now left; right].
    right. intros [H|H];
      [exact (Qlt_not_le _ _ Hlt H)|exact (Qlt_not_le _ _ Hgt H)]. }
  destruct Hcases as [Hdec|Hnot].
  - pose proof (first_state_decided v Hdec) as Hp. fold p in Hp.
    split; split; intros H; try tauto.
    + constructor; [exact Hp|]. now apply hold_binary.
    + exfalso. simpl in H. inversion H as [[Hhd Htl]].
      rewrite Hhd in Hp. destruct Hp; discriminate.
  - pose proof (first_state_undecided v Hnot) as Hp. fold p in Hp.
    split; split; intros H; try tauto.
    + exfalso. inversion H as [|x l Hx _]; subst.
      rewrite Hp in Hx. destruct Hx; discriminate.
    + rewrite Hp, hold_none. reflexivity.
Qed.

(** With [threshold_low < threshold_high] and a first sample outside the
    dead band, the output follows the thresholds at every index: it is 1
    wherever the sample is [>= threshold_high] and 0 wherever the sample
    is [<= threshold_low]. *)
Theorem digitizer_follows_thresholds (data : list Q) (first v : Q) (i : nat)
  (Hth : (threshold_low < threshold_high)%Q)
  (Hfirst : nth_error data 0 = Some first)
  (Hdec : (threshold_high <= first)%Q \/ (first <= threshold_low)%Q)
  (Hv : nth_error data i = Some v) :
  ((threshold_high <= v)%Q ->
   nth_error
     (Digitizer.convert_analog_to_digital data threshold_low threshold_high) i
   = Some (PyInt 1)) /\
  ((v <= threshold_low)%Q ->
   nth_error
     (Digitizer.convert_analog_to_digital data threshold_low threshold_high) i
   = Some (PyInt 0)).
Proof.
  assert (Hhigh : (threshold_high <= v)%Q -> Digitizer.ge v threshold_high = true)
    by (intros H; now apply ge_iff).
  assert (Hnlow : (threshold_high <= v)%Q -> Digitizer.le v threshold_low = false).
  { intros H. destruct (Digitizer.le v threshold_low) eqn:Hle; [|reflexivity].
    apply le_iff in Hle. exfalso.
    apply (Qlt_not_le _ _ Hth). now apply Qle_trans with v. }
  assert (Hlow : (v <= threshold_low)%Q -> Digitizer.le v threshold_low = true)
    by (intros H; now apply le_iff).
  assert (Hnhigh : (v <= threshold_low)%Q -> Digitizer.ge v threshold_high = false).
  { intros H. destruct (Digitizer.ge v threshold_high) eqn:Hge; [|reflexivity].
    apply ge_iff in Hge. exfalso.
    apply (Qlt_not_le _ _ Hth). now apply Qle_trans with v. }
  destruct i as [|j].
  - destruct data as [|v0 rest]; [discriminate|].
    simpl in Hv. inversion Hv; subst v0.
    rewrite convert_cons. cbv zeta. simpl. unfold Digitizer.first_state.
    split; intros H.
    + now rewrite (Hhigh H).
    + now rewrite (Hnhigh H), (Hlow H).
  - destruct (convert_defined threshold_low threshold_high data j v Hv)
      as [a Ha].
    rewrite (convert_step threshold_low threshold_high data j a v Ha Hv).
    assert (Hbin : is_binary a).
    { assert (Hall : Forall is_binary (digitize data)).
      { destruct data as [|v0 rest]; [discriminate|].
        simpl in Hfirst. inversion Hfirst; subst v0.
        now apply convert_binary_when_decided. }
      rewrite Forall_forall in Hall. apply Hall.
      eapply nth_error_In. exact Ha. }
    split; intros H.
    + destruct Hbin as [->| ->].
      * rewrite next_from_low. now rewrite (Hhigh H).
      * rewrite next_from_high. now rewrite (Hnlow H).
    + destruct Hbin as [->| ->].
      * rewrite next_from_low. now rewrite (Hnhigh H).
      * rewrite next_from_high. now rewrite (Hlow H).
Qed.

(** With thresholds that overlap ([threshold_high <= threshold_low]) a
    sample inside the overlap flips a determined state: after a 1 the
    output is 0 and after a 0 it is 1. *)
Theorem digitizer_toggles_in_overlap (data : list Q) (v : Q) (i : nat) (b : Z)
  (Hb : is_bit b)
  (Hout : nth_error
            (Digitizer.convert_analog_to_digital data threshold_low threshold_high)
            i = Some (PyInt b))
  (Hv : nth_error data (S i) = Some v)
  (Hhigh : (threshold_high <= v)%Q) (Hlow : (v <= threshold_low)%Q) :
  nth_error
    (Digitizer.convert_analog_to_digital data threshold_low threshold_high) (S i)
  = Some (PyInt (1 - b)).
Proof.
  rewrite (convert_step threshold_low threshold_high data i _ v Hout Hv).
  apply (ge_iff v threshold_high) in Hhigh.
  apply (le_iff v threshold_low) in Hlow.
  destruct Hb as [->| ->].
  - rewrite next_from_low. now rewrite Hhigh.
  - rewrite next_from_high. now rewrite Hlow.
Qed.

End DigitizerFurther.

Lemma digitizer_binary_or_undetermined_witness :
  Forall is_binary
    (Digitizer.convert_analog_to_digital [3; 3#2; 0]%Q (4#5) 2) /\
  Digitizer.convert_analog_to_digital [3#2; 3; 0]%Q (4#5) 2
  = repeat PyNone 3.
Proof.
  split.
  - apply (proj1 (digitizer_binary_or_undetermined
                    (4#5) 2 [3; 3#2; 0]%Q 3 eq_refl)).
    left. unfold Qle; simpl; lia.
  - apply (proj2 (digitizer_binary_or_undetermined
                    (4#5) 2 [3#2; 3; 0]%Q (3#2) eq_refl)).
    intros [H|H]; unfold Qle in H; simpl in H; lia.
Defined.

Lemma digitizer_follows_thresholds_witness :
  nth_error (Digitizer.convert_analog_to_digital [0; 3#2; 3; 1]%Q (4#5) 2) 2
  = Some (PyInt 1).
Proof.
  refine (proj1 (digitizer_follows_thresholds
                   (4#5) 2 [0; 3#2; 3; 1]%Q 0 3 2 _ eq_refl _ eq_refl) _).
  - unfold Qlt; simpl; lia.
  - right. unfold Qle; simpl; lia.
  - unfold Qle; simpl; lia.
Defined.

Lemma digitizer_toggles_in_overlap_witness :
  nth_error (Digitizer.convert_analog_to_digital [1; 1; 1]%Q 1 1) 1
  = Some (PyInt 0).
Proof.
  refine (digitizer_toggles_in_overlap 1 1 [1; 1; 1]%Q 1 0 1 _ eq_refl eq_refl _ _).
  - now right.
  - unfold Qle; simpl; lia.
  - unfold Qle; simpl; lia.
Defined.


(** ** Edge latch: further properties *)

Lemma int_eq_invert (v : pyval) :
  int_eq 1 (invert v) = int_eq 0 v /\ int_eq 0 (invert v) = int_eq 1 v.
Proof.
  destruct v as [|n|s]; try (split; reflexivity).
  destruct n as [|p|p]; try (split; reflexivity).
  destruct p; split; reflexivity.
Qed.

Lemma qualifying_edge_invert (rising_edge : bool) (clock : list pyval) (i : nat) :
  qualifying_edge (negb rising_edge) (map invert clock) i
  = qualifying_edge rising_edge clock i.
Proof.
  unfold qualifying_edge.
  change PyNone with (invert PyNone) at 1 2 3 4.
  rewrite !map_nth.
  destruct (int_eq_invert (nth i clock PyNone)) as [H1 H0].
  destruct (int_eq_invert (nth (i - 1) clock PyNone)) as [P1 P0].
  destruct rising_edge; simpl; congruence.
Qed.

Lemma edge_indices_invert (rising_edge : bool) (clock : list pyval) :
  edge_indices (negb rising_edge) (map invert clock)
  = edge_indices rising_edge clock.
Proof.
  unfold edge_indices. rewrite length_map.
  apply filter_ext. intros i. apply qualifying_edge_invert.
Qed.

(** Latching on one edge direction is latching on the other direction of
    the complemented clock, whatever the lengths and the data are. *)
Theorem latch_edge_duality (clock data : list pyval) (rising_edge : bool) :
  Latch.latch_data_on_sclk_to_bitstream (map invert clock) data
    (negb rising_edge)
  = Latch.latch_data_on_sclk_to_bitstream clock data rising_edge.
Proof.
  destruct (Nat.eq_dec (length clock) (length data)) as [Heq|Hne].
  - rewrite !latch_equal_lengths by (rewrite ?length_map; exact Heq).
    now rewrite edge_indices_invert.
  - rewrite !latch_unequal_lengths by (rewrite ?length_map; exact Hne).
    reflexivity.
Qed.

(** Every latched value is taken from the data sequence, so whatever
    holds of all data samples (being a bit, for instance) holds of all
    latched values. *)
Theorem latch_preserves_data_property (P : pyval -> Prop)
  (clock data : list pyval) (rising_edge : bool)
  (Hlen : length clock = length data) (HP : Forall P data) :
  exists out,
    Latch.latch_data_on_sclk_to_bitstream clock data rising_edge = Ok out /\
    Forall P out.
Proof.
  eexists. split; [now apply latch_equal_lengths|].
  apply Forall_map, Forall_forall. intros i Hi.
  apply edge_indices_spec in Hi. destruct Hi as [Hi _].
  rewrite Forall_forall in HP. apply HP, nth_In. lia.
Qed.

Lemma latch_preserves_data_property_witness :
  exists out,
    Latch.latch_data_on_sclk_to_bitstream
      (ints [0;1;0;1]) (ints [1;0;1;1]) true = Ok out /\
    Forall is_binary out.
Proof.
  refine (latch_preserves_data_property is_binary
            (ints [0;1;0;1]) (ints [1;0;1;1]) true eq_refl _).
  repeat constructor; (now left) || (now right).
Defined.

Lemma filter_none {A} (f : A -> bool) (l : list A) :
  (forall x, In x l -> f x = false) -> filter f l = [].
Proof.
  induction l as [|x rest IH]; intros Hf; simpl; [reflexivity|].
  rewrite (Hf x) by now left. apply IH. intros y Hy. apply Hf. now right.
Qed.

Lemma edge_indices_repeat (c : pyval) (n : nat) (rising_edge : bool) :
  edge_indices rising_edge (repeat c n) = [].
Proof.
  unfold edge_indices. apply filter_none.
  intros i Hi. apply in_seq in Hi. rewrite repeat_length in Hi.
  unfold qualifying_edge.
  rewrite !(nth_repeat_lt c) by lia.
  destruct c as [|m|s]; cbn [int_eq]; try (now destruct rising_edge).
  destruct (Z.eqb_spec 1 m), (Z.eqb_spec 0 m); destruct rising_edge;
    try reflexivity; lia.
Qed.

(** A clock that never changes latches nothing: in particular the
    all-[None] clock that the digitizer returns for an undetermined first
    sample gives the empty bit stream. *)
Theorem latch_constant_clock (c : pyval) (data : list pyval)
  (rising_edge : bool) :
  Latch.latch_data_on_sclk_to_bitstream (repeat c (length data)) data
    rising_edge
  = Ok [].
Proof.
  rewrite latch_equal_lengths by apply repeat_length.
  now rewrite edge_indices_repeat.
Qed.

Lemma qualifying_edge_cons (rising_edge : bool) (c : pyval)
  (rest : list pyval) (i : nat) :
  (1 <= i)%nat ->
  qualifying_edge rising_edge (c :: rest) (S i)
  = qualifying_edge rising_edge rest i.
Proof.
  intros Hi. unfold qualifying_edge.
  destruct i as [|j]; [lia|]. simpl. now rewrite Nat.sub_0_r.
Qed.

(** The edges of a clock, from those of the clock without its first
    sample. *)
Lemma edge_indices_cons (rising_edge : bool) (c c' : pyval) (l : list pyval) :
  edge_indices rising_edge (c :: c' :: l)
  = (if qualifying_edge rising_edge [c; c'] 1 then [1%nat] else [])
    ++ map S (edge_indices rising_edge (c' :: l)).
Proof.
  unfold edge_indices.
  replace (length (c :: c' :: l) - 1)%nat with (S (length l)) by (simpl; lia).
  replace (length (c' :: l) - 1)%nat with (length l) by (simpl; lia).
  rewrite <- cons_seq, <- (seq_shift (length l) 1). cbn [filter].
  assert (Hhead : qualifying_edge rising_edge (c :: c' :: l) 1
                  = qualifying_edge rising_edge [c; c'] 1) by reflexivity.
  rewrite Hhead, filter_map_swap.
  rewrite (filter_ext_in
             (fun a => qualifying_edge rising_edge (c :: c' :: l) (S a))
             (qualifying_edge rising_edge (c' :: l))).
  - now destruct (qualifying_edge rising_edge [c; c'] 1).
  - intros i Hi. apply in_seq in Hi. apply qualifying_edge_cons. lia.
Qed.

Lemma edge_balance (clock_bits : list Z) :
  Forall is_bit clock_bits ->
  Z.of_nat (length (edge_indices true (ints clock_bits)))
  - Z.of_nat (length (edge_indices false (ints clock_bits)))
  = last clock_bits 0 - hd 0 clock_bits.
Proof.
  induction 1 as [|z rest Hz Hrest IH]; [reflexivity|].
  destruct rest as [|z' rest]; [simpl; lia|].
  change (ints (z :: z' :: rest)) with (PyInt z :: PyInt z' :: ints rest).
  rewrite !edge_indices_cons, !length_app, !length_map.
  change (PyInt z' :: ints rest) with (ints (z' :: rest)).
  change (last (z :: z' :: rest) 0) with (last (z' :: rest) 0).
  change (hd 0 (z' :: rest)) with z' in IH.
  change (hd 0 (z :: z' :: rest)) with z.
  inversion Hrest as [|? ? Hz' _]; subst.
  rewrite !Nat2Z.inj_add.
  assert (Hstep :
            Z.of_nat (length (if qualifying_edge true [PyInt z; PyInt z'] 1
                              then [1%nat] else []))
            - Z.of_nat (length (if qualifying_edge false [PyInt z; PyInt z'] 1
                                then [1%nat] else []))
            = z' - z)
    by (destruct Hz as [->| ->], Hz' as [->| ->]; reflexivity).
  lia.
Qed.

(** On a binary clock rising and falling edges alternate: the number of
    bits latched on rising edges minus the number latched on falling
    edges is the last clock sample minus the first one, so the two bit
    streams differ in length by at most one. *)
Theorem latch_edges_alternate (clock_bits : list Z) (data : list pyval)
  (Hbits : Forall is_bit clock_bits)
  (Hlen : length clock_bits = length data) :
  exists up down,
    Latch.latch_data_on_sclk_to_bitstream (ints clock_bits) data true = Ok up /\
    Latch.latch_data_on_sclk_to_bitstream (ints clock_bits) data false = Ok down /\
    Z.of_nat (length up) - Z.of_nat (length down)
    = last clock_bits 0 - hd 0 clock_bits /\
    -1 <= Z.of_nat (length up) - Z.of_nat (length down) <= 1.
Proof.
  assert (Hl : length (ints clock_bits) = length data)
    by (unfold ints; now rewrite length_map).
  do 2 eexists.
  split; [now apply latch_equal_lengths|].
  split; [now apply latch_equal_lengths|].
  rewrite !length_map.
  pose proof (edge_balance clock_bits Hbits) as Hbal.
  split; [exact Hbal|]. rewrite Hbal.
  assert (Hlast : is_bit (last clock_bits 0)).
  { destruct clock_bits as [|z rest]; [now left|].
    rewrite Forall_forall in Hbits. apply Hbits.
    destruct (exists_last (l := z :: rest)) as (l' & a & Heq); [discriminate|].
    rewrite Heq, last_last. apply in_or_app. right. now left. }
  assert (Hhd : is_bit (hd 0 clock_bits)).
  { destruct Hbits as [|z rest Hz _]; [now left|exact Hz]. }
  destruct Hlast as [->| ->], Hhd as [->| ->]; lia.
Qed.

Lemma latch_edges_alternate_witness :
  exists up down,
    Latch.latch_data_on_sclk_to_bitstream
      (ints [0;1;0;1;1]) (ints [1;1;0;0;1]) true = Ok up /\
    Latch.latch_data_on_sclk_to_bitstream
      (ints [0;1;0;1;1]) (ints [1;1;0;0;1]) false = Ok down /\
    Z.of_nat (length up) - Z.of_nat (length down) = 1 - 0 /\
    -1 <= Z.of_nat (length up) - Z.of_nat (length down) <= 1.
Proof.
  refine (latch_edges_alternate [0;1;0;1;1] (ints [1;1;0;0;1]) _ eq_refl).
  repeat constructor; (now left) || (now right).
Defined.

(** ** Decoder: further properties *)

Section ChunksFurther.
Context {A : Type}.

Lemma chunks_app (size count2 : nat) (l2 : list A) :
  forall (count1 : nat) (l1 : list A),
    (count1 * size = length l1)%nat ->
    chunks (count1 + count2) size (l1 ++ l2)
    = chunks count1 size l1 ++ chunks count2 size l2.
Proof.
  induction count1 as [|c IH]; intros l1 Hlen; simpl in *.
  - symmetry in Hlen. apply length_zero_iff_nil in Hlen. now subst l1.
  - rewrite firstn_app, skipn_app.
    replace (size - length l1)%nat with 0%nat by lia. simpl.
    rewrite app_nil_r. f_equal. apply IH.
    rewrite length_skipn. lia.
Qed.

Lemma chunks_concat (size : nat) (groups : list (list A)) :
  Forall (fun chunk => length chunk = size) groups ->
  chunks (length groups) size (concat groups) = groups.
Proof.
  induction 1 as [|chunk rest Hc _ IH]; simpl; [reflexivity|].
  rewrite firstn_app, skipn_app.
  replace (size - length chunk)%nat with 0%nat by lia.
  rewrite firstn_all2, skipn_all2 by lia. simpl.
  now rewrite app_nil_r, IH.
Qed.

Lemma rev_concat (groups : list (list A)) :
  rev (concat groups) = concat (map (@rev A) (rev groups)).
Proof.
  induction groups as [|chunk rest IH]; simpl; [reflexivity|].
  rewrite rev_app_distr, IH, map_app, concat_app. simpl.
  now rewrite app_nil_r.
Qed.

(** The chunks of a reversed list are the reversed chunks, last chunk
    first. *)
Lemma chunks_rev (count size : nat) (l : list A) :
  (count * size = length l)%nat ->
  chunks count size (rev l) = map (@rev A) (rev (chunks count size l)).
Proof.
  intros Hlen.
  pose proof (chunks_size count size l ltac:(lia)) as Hsize.
  rewrite <- (concat_chunks count size l Hlen) at 1.
  rewrite rev_concat.
  rewrite <- (length_chunks count size l) at 1.
  rewrite <- length_rev, <- (length_map (@rev A)).
  apply chunks_concat.
  apply Forall_map, Forall_rev.
  eapply Forall_impl; [|exact Hsize].
  intros chunk Hc. simpl in *. now rewrite length_rev.
Qed.
End ChunksFurther.

Lemma is_int_ints (l : list pyval) :
  Forall is_int l <-> exists zs, l = ints zs.
Proof.
  split.
  - induction 1 as [|v rest [n ->] _ [zs ->]]; [now exists []|].
    now exists (n :: zs).
  - intros [zs ->]. apply Forall_map, Forall_forall. intros n _. now exists n.
Qed.

Lemma accumulate_ok_from (group : list pyval) :
  forall (k : nat) (number result : Z),
    for_each
      (fun number jb =>
         b <- Decoder.lshift (snd jb) (fst jb) ;; Ok (Z.lor number b))
      (combine (map Z.of_nat (seq k (length group))) group) number
    = Ok result ->
    Forall is_int group.
Proof.
  induction group as [|v rest IH]; intros k number result; simpl; [constructor|].
  destruct v as [|b|s]; simpl; try discriminate.
  intros Hok. constructor; [now exists b|]. eapply IH. exact Hok.
Qed.

Lemma accumulate_ok (group : list pyval) (result : Z) :
  Decoder.accumulate group = Ok result -> Forall is_int group.
Proof. apply accumulate_ok_from. Qed.

Section DecoderStream.
Variable bitstream : list pyval.
Variable size : nat.
Variables MSB_first hexadecimal : bool.

Abbreviation stream_body :=
  (Decoder.loop_body bitstream (Z.of_nat size) MSB_first hexadecimal).

Lemma decode_unfold :
  (0 < size)%nat ->
  Z.of_nat (length bitstream) mod Z.of_nat size = 0 ->
  Decoder.decode_bitstream bitstream (Z.of_nat size) MSB_first hexadecimal
  = for_each stream_body
      (map Z.of_nat (seq 0 (length bitstream / size))) [].
Proof.
  intros Hpos Hmod. unfold Decoder.decode_bitstream.
  destruct (Z.eqb_spec (Z.of_nat size) 0) as [H0|_]; [lia|].
  rewrite Hmod. simpl negb. cbv iota.
  rewrite Z.quot_div_nonneg by lia.
  rewrite <- Nat2Z.inj_div.
  change 0 with (Z.of_nat 0). now rewrite py_range_nat, Nat.sub_0_r.
Qed.

Lemma stream_body_ok (acc acc' : list pyval) (i : nat) :
  (i * size + size <= length bitstream)%nat ->
  stream_body acc (Z.of_nat i) = Ok acc' ->
  Forall is_int (firstn size (skipn (i * size) bitstream)).
Proof.
  intros Hle. unfold Decoder.loop_body.
  replace (Z.of_nat i * Z.of_nat size) with (Z.of_nat (i * size)) by lia.
  rewrite (Z.add_comm (Z.of_nat size)).
  rewrite slice_in_range by exact Hle.
  destruct (Decoder.accumulate _) as [number|e] eqn:Hacc; [|discriminate].
  intros _. apply accumulate_ok in Hacc.
  destruct MSB_first; [|exact Hacc].
  apply Forall_rev in Hacc. now rewrite rev_involutive in Hacc.
Qed.

Lemma stream_loop_ok (count : nat) :
  forall (k : nat) (acc out : list pyval),
    ((k + count) * size <= length bitstream)%nat ->
    for_each stream_body (map Z.of_nat (seq k count)) acc = Ok out ->
    Forall (Forall is_int) (chunks count size (skipn (k * size) bitstream)).
Proof.
  induction count as [|c IH]; intros k acc out Hle; simpl; [constructor|].
  destruct (stream_body acc (Z.of_nat k)) as [acc'|e] eqn:Hbody; [|discriminate].
  simpl. intros Hrest. constructor.
  - eapply stream_body_ok; [|exact Hbody]. lia.
  - rewrite skipn_skipn. apply (IH (S k) acc' out); [lia|exact Hrest].
Qed.

(** A stream that decodes holds integers only. *)
Lemma decode_ok_ints (out : list pyval) :
  (0 < size)%nat ->
  Z.of_nat (length bitstream) mod Z.of_nat size = 0 ->
  Decoder.decode_bitstream bitstream (Z.of_nat size) MSB_first hexadecimal
  = Ok out ->
  Forall is_int bitstream.
Proof.
  intros Hpos Hmod. rewrite decode_unfold by assumption. intros Hok.
  pose proof (mod_of_nat _ _ Hmod Hpos) as Hdiv.
  apply stream_loop_ok in Hok; [|simpl; lia].
  simpl in Hok. apply Forall_concat in Hok.
  now rewrite concat_chunks in Hok.
Qed.
End DecoderStream.

Lemma group_value_in_range (MSB_first : bool) (chunk : list Z) :
  Forall is_bit chunk ->
  0 <= group_value MSB_first chunk < 2 ^ Z.of_nat (length chunk).
Proof.
  intros Hbits. rewrite group_value_lsb_value by exact Hbits.
  replace (length chunk) with (length (if MSB_first then rev chunk else chunk))
    by (destruct MSB_first; [apply length_rev|reflexivity]).
  apply lsb_value_bounds.
  destruct MSB_first; [now apply Forall_rev|exact Hbits].
Qed.

Lemma expand_group_value (MSB_first : bool) (chunk : list Z) :
  Forall is_bit chunk ->
  expand (length chunk) MSB_first (group_value MSB_first chunk) = chunk.
Proof.
  intros Hbits. rewrite group_value_lsb_value by exact Hbits.
  unfold expand. destruct MSB_first.
  - rewrite <- (length_rev chunk).
    rewrite bits_lsb_first_lsb_value by now apply Forall_rev.
    apply rev_involutive.
  - now apply bits_lsb_first_lsb_value.
Qed.

Lemma group_value_rev (MSB_first : bool) (chunk : list Z) :
  group_value (negb MSB_first) (rev chunk) = group_value MSB_first chunk.
Proof.
  unfold group_value. destruct MSB_first; simpl; [reflexivity|].
  now rewrite rev_involutive.
Qed.

(** Decoding distributes over concatenation: when two streams of
    integers both split evenly into groups, the decoding of the one
    followed by the other is the decoding of the first followed by the
    decoding of the second. *)
Theorem decode_concatenation (bits1 bits2 : list Z) (group_by : Z)
  (MSB_first hexadecimal : bool)
  (Hgroup : 0 < group_by)
  (Hlen1 : Z.of_nat (length bits1) mod group_by = 0)
  (Hlen2 : Z.of_nat (length bits2) mod group_by = 0) :
  exists out1 out2,
    Decoder.decode_bitstream (ints bits1) group_by MSB_first hexadecimal
    = Ok out1 /\
    Decoder.decode_bitstream (ints bits2) group_by MSB_first hexadecimal
    = Ok out2 /\
    Decoder.decode_bitstream (ints (bits1 ++ bits2)) group_by
      MSB_first hexadecimal
    = Ok (out1 ++ out2).
Proof.
  set (size := Z.to_nat group_by).
  assert (Hsize : group_by = Z.of_nat size) by (unfold size; lia).
  rewrite Hsize in *.
  assert (Hpos : (0 < size)%nat) by lia.
  pose proof (mod_of_nat _ _ Hlen1 Hpos) as Hdiv1.
  assert (Hlen : Z.of_nat (length (bits1 ++ bits2)) mod Z.of_nat size = 0).
  { rewrite length_app, Nat2Z.inj_add, <- Z.add_mod_idemp_l,
      Hlen1 by lia. exact Hlen2. }
  do 2 eexists.
  rewrite !decode_divisible by assumption.
  split; [reflexivity|]. split; [reflexivity|].
  rewrite <- map_app. do 2 f_equal.
  rewrite length_app. rewrite <- Hdiv1 at 1.
  rewrite Nat.div_add_l by lia.
  now apply chunks_app.
Qed.

Lemma decode_concatenation_witness :
  exists out1 out2,
    Decoder.decode_bitstream (ints [1;0;1;1]) 2 true false = Ok out1 /\
    Decoder.decode_bitstream (ints [0;1]) 2 true false = Ok out2 /\
    Decoder.decode_bitstream (ints ([1;0;1;1] ++ [0;1])) 2 true false
    = Ok (out1 ++ out2).
Proof.
  refine (decode_concatenation [1;0;1;1] [0;1] 2 true false _ _ _).
  - lia.
  - reflexivity.
  - reflexivity.
Defined.

(** With a positive group size that divides the length, the decoder
    returns normally exactly when every element of the stream is an
    integer; a [None] anywhere in the stream (as latched from an
    undetermined data channel) makes it raise [TypeError]. *)
Theorem decode_raises_type_error (bitstream : list pyval) (group_by : Z)
  (MSB_first hexadecimal : bool)
  (Hgroup : 0 < group_by)
  (Hlen : Z.of_nat (length bitstream) mod group_by = 0) :
  (Forall is_int bitstream ->
   exists out,
     Decoder.decode_bitstream bitstream group_by MSB_first hexadecimal
     = Ok out) /\
  (~ Forall is_int bitstream ->
   Decoder.decode_bitstream bitstream group_by MSB_first hexadecimal
   = Raise TypeError).
Proof.
  set (size := Z.to_nat group_by).
  assert (Hsize : group_by = Z.of_nat size) by (unfold size; lia).
  rewrite Hsize in *.
  split.
  - intros Hints. apply is_int_ints in Hints. destruct Hints as [zs ->].
    unfold ints in Hlen. rewrite length_map in Hlen.
    eexists. apply decode_divisible; [lia|exact Hlen].
  - intros Hnot.
    destruct (Decoder.decode_bitstream bitstream (Z.of_nat size)
                MSB_first hexadecimal) as [out|e] eqn:Hdec.
    + exfalso. apply Hnot.
      eapply decode_ok_ints; [| |exact Hdec]; [lia|exact Hlen].
    + f_equal. rewrite decode_unfold in Hdec by (lia || exact Hlen).
      now apply decode_loop_only_type_error in Hdec.
Qed.

Lemma decode_raises_type_error_witness :
  Decoder.decode_bitstream [PyInt 1; PyInt 0; PyNone; PyInt 1] 2 true true
  = Raise TypeError.
Proof.
  refine (proj2 (decode_raises_type_error
                   [PyInt 1; PyInt 0; PyNone; PyInt 1] 2 true true _ _) _).
  - lia.
  - reflexivity.
  - intros H. inversion H as [|? ? _ H1]; subst.
    inversion H1 as [|? ? _ H2]; subst.
    inversion H2 as [|? ? [n Hn] _]; subst. discriminate.
Defined.

(** A negative group size is not rejected: when it does not divide the
    length the indivisible-stream error is raised, and when it does the
    decoder returns the empty list, whatever the stream holds. *)
Theorem decode_negative_group_size (bitstream : list pyval) (group_by : Z)
  (MSB_first hexadecimal : bool) (Hgroup : group_by < 0) :
  Decoder.decode_bitstream bitstream group_by MSB_first hexadecimal
  = if Z.of_nat (length bitstream) mod group_by =? 0 then Ok []
    else Raise (CannotGroup group_by (Z.of_nat (length bitstream))).
Proof.
  unfold Decoder.decode_bitstream.
  destruct (Z.eqb_spec group_by 0) as [H0|_]; [lia|].
  destruct (Z.of_nat (length bitstream) mod group_by =? 0); [|reflexivity].
  simpl. unfold py_range.
  assert (Hq : Z.quot (Z.of_nat (length bitstream)) group_by <= 0).
  { replace group_by with (- - group_by) by lia.
    rewrite Z.quot_opp_r by lia.
    pose proof (Z.quot_pos (Z.of_nat (length bitstream)) (- group_by)
                  ltac:(lia) ltac:(lia)).
    lia. }
  replace (Z.to_nat (Z.quot (Z.of_nat (length bitstream)) group_by - 0))
    with 0%nat by lia.
  reflexivity.
Qed.

Lemma decode_negative_group_size_witness :
  Decoder.decode_bitstream [PyInt 1; PyNone; PyInt 0; PyInt 1] (-4) true true
  = Ok [].
Proof.
  exact (decode_negative_group_size
           [PyInt 1; PyNone; PyInt 0; PyInt 1] (-4) true true ltac:(lia)).
Defined.

(** The empty stream decodes to the empty list for every group size
    except zero, for which the remainder raises [ZeroDivisionError]
    (as it does for every stream). *)
Theorem decode_empty_stream (group_by : Z) (MSB_first hexadecimal : bool) :
  (group_by <> 0 ->
   Decoder.decode_bitstream [] group_by MSB_first hexadecimal = Ok []) /\
  (group_by = 0 ->
   forall bitstream,
     Decoder.decode_bitstream bitstream group_by MSB_first hexadecimal
     = Raise ZeroDivisionError).
Proof.
  split.
  - intros Hne. unfold Decoder.decode_bitstream.
    destruct (Z.eqb_spec group_by 0) as [H0|_]; [contradiction|].
    simpl length. change (Z.of_nat 0) with 0.
    rewrite Z.mod_0_l by exact Hne. reflexivity.
  - intros -> bitstream. reflexivity.
Qed.

Lemma decode_empty_stream_witness :
  Decoder.decode_bitstream [] 8 true true = Ok [] /\
  Decoder.decode_bitstream [PyInt 1] 0 true true = Raise ZeroDivisionError.
Proof.
  split.
  - apply (proj1 (decode_empty_stream 8 true true)). lia.
  - apply (proj2 (decode_empty_stream 0 true true)). reflexivity.
Defined.

(** The hexadecimal output is the integer output rendered by [hex],
    element by element, and reading each string back as a hexadecimal
    number gives the integer again. *)
Theorem decode_hexadecimal_output (bits : list Z) (group_by : Z)
  (MSB_first : bool)
  (Hgroup : 0 < group_by)
  (Hlen : Z.of_nat (length bits) mod group_by = 0) :
  exists values : list Z,
    Decoder.decode_bitstream (ints bits) group_by MSB_first false
    = Ok (map PyInt values) /\
    Decoder.decode_bitstream (ints bits) group_by MSB_first true
    = Ok (map (fun value => PyStr (Decoder.hex value)) values) /\
    map (fun value => HexString.to_Z (Decoder.hex value)) values = values.
Proof.
  set (size := Z.to_nat group_by).
  assert (Hsize : group_by = Z.of_nat size) by (unfold size; lia).
  rewrite Hsize in *.
  exists (map (group_value MSB_first) (chunks (length bits / size) size bits)).
  rewrite !decode_divisible by (lia || exact Hlen).
  rewrite !map_map. split; [reflexivity|]. split; [reflexivity|].
  apply map_ext. intros chunk. apply HexString.to_Z_of_Z.
Qed.

Lemma decode_hexadecimal_output_witness :
  exists values : list Z,
    Decoder.decode_bitstream (ints [1;0;1;0;1;1;1;1]) 8 true false
    = Ok (map PyInt values) /\
    Decoder.decode_bitstream (ints [1;0;1;0;1;1;1;1]) 8 true true
    = Ok (map (fun value => PyStr (Decoder.hex value)) values) /\
    map (fun value => HexString.to_Z (Decoder.hex value)) values = values.
Proof.
  refine (decode_hexadecimal_output [1;0;1;0;1;1;1;1] 8 true _ _).
  - lia.
  - reflexivity.
Defined.

(** The two bit orders mirror each other: decoding the reversed stream
    in the other bit order gives the same values in reverse order. *)
Theorem decode_reversed_stream (bits : list Z) (group_by : Z)
  (MSB_first hexadecimal : bool)
  (Hgroup : 0 < group_by)
  (Hlen : Z.of_nat (length bits) mod group_by = 0) :
  exists out,
    Decoder.decode_bitstream (ints bits) group_by MSB_first hexadecimal
    = Ok out /\
    Decoder.decode_bitstream (ints (rev bits)) group_by (negb MSB_first)
      hexadecimal
    = Ok (rev out).
Proof.
  set (size := Z.to_nat group_by).
  assert (Hsize : group_by = Z.of_nat size) by (unfold size; lia).
  rewrite Hsize in *.
  assert (Hpos : (0 < size)%nat) by lia.
  pose proof (mod_of_nat _ _ Hlen Hpos) as Hdiv.
  eexists. split; [now apply decode_divisible|].
  rewrite decode_divisible by (rewrite ?length_rev; assumption).
  rewrite length_rev, chunks_rev by exact Hdiv.
  rewrite <- map_rev, map_map. f_equal.
  apply map_ext. intros chunk. now rewrite group_value_rev.
Qed.

Lemma decode_reversed_stream_witness :
  exists out,
    Decoder.decode_bitstream (ints [1;1;0;0; 1;0;0;0]) 4 true false = Ok out /\
    Decoder.decode_bitstream (ints (rev [1;1;0;0; 1;0;0;0])) 4 false false
    = Ok (rev out).
Proof.
  refine (decode_reversed_stream [1;1;0;0; 1;0;0;0] 4 true false _ _).
  - lia.
  - reflexivity.
Defined.

(** Decoding loses nothing on a whole stream of bits: expanding every
    decoded value back into [group_by] bits, in the same bit order, and
    gluing the expansions together gives the stream back.  Two different
    streams of bits of the same length therefore never decode to the same
    values. *)
Theorem decode_stream_round_trip (bits : list Z) (group_by : Z)
  (MSB_first : bool)
  (Hbits : Forall is_bit bits)
  (Hgroup : 0 < group_by)
  (Hlen : Z.of_nat (length bits) mod group_by = 0) :
  exists values : list Z,
    Decoder.decode_bitstream (ints bits) group_by MSB_first false
    = Ok (map PyInt values) /\
    concat (map (expand (Z.to_nat group_by) MSB_first) values) = bits.
Proof.
  set (size := Z.to_nat group_by).
  assert (Hsize : group_by = Z.of_nat size) by (unfold size; lia).
  rewrite Hsize in *.
  assert (Hpos : (0 < size)%nat) by lia.
  pose proof (mod_of_nat _ _ Hlen Hpos) as Hdiv.
  exists (map (group_value MSB_first) (chunks (length bits / size) size bits)).
  split.
  - rewrite decode_divisible by assumption. now rewrite map_map.
  - rewrite map_map.
    transitivity (concat (chunks (length bits / size) size bits));
      [|now apply concat_chunks].
    f_equal.
    transitivity (map (fun chunk : list Z => chunk)
                    (chunks (length bits / size) size bits));
      [|apply map_id].
    apply map_ext_in. intros chunk Hin.
    pose proof (chunks_Forall is_bit (length bits / size) size bits Hbits) as Hcb.
    pose proof (chunks_size (length bits / size) size bits ltac:(lia)) as Hcs.
    rewrite Forall_forall in Hcb, Hcs.
    rewrite <- (Hcs chunk Hin). apply expand_group_value. now apply Hcb.
Qed.

Lemma decode_stream_round_trip_witness :
  exists values : list Z,
    Decoder.decode_bitstream (ints [1;1;0; 0;1;0; 1;1;1]) 3 true false
    = Ok (map PyInt values) /\
    concat (map (expand (Z.to_nat 3) true) values) = [1;1;0; 0;1;0; 1;1;1].
Proof.
  refine (decode_stream_round_trip [1;1;0; 0;1;0; 1;1;1] 3 true _ _ _).
  - repeat constructor; (now left) || (now right).
  - lia.
  - reflexivity.
Defined.

(** ** The pipeline of [main] *)

Lemma binary_ints (l : list pyval) :
  Forall is_binary l -> exists zs, l = ints zs /\ Forall is_bit zs.
Proof.
  induction 1 as [|v rest Hv _ (zs & -> & Hzs)]; [now exists []|].
  destruct Hv as [->| ->].
  - exists (0 :: zs). split; [reflexivity|]. constructor; [now left|exact Hzs].
  - exists (1 :: zs). split; [reflexivity|]. constructor; [now right|exact Hzs].
Qed.

Lemma convert_undecided (threshold_low threshold_high v : Q) (rest : list Q) :
  ~ ((threshold_high <= v)%Q \/ (v <= threshold_low)%Q) ->
  Digitizer.convert_analog_to_digital (v :: rest) threshold_low threshold_high
  = repeat PyNone (length (v :: rest)).
Proof.
  intros Hnot. rewrite convert_cons. cbv zeta.
  rewrite first_state_undecided by exact Hnot.
  now rewrite hold_none.
Qed.

Lemma between_undecided (threshold_low threshold_high v : Q) :
  (threshold_low < v)%Q -> (v < threshold_high)%Q ->
  ~ ((threshold_high <= v)%Q \/ (v <= threshold_low)%Q).
Proof.
  intros Hlo Hhi [H|H];
    [exact (Qlt_not_le _ _ Hhi H)|exact (Qlt_not_le _ _ Hlo H)].
Qed.

Section Pipeline.
Variable df : Main.dataframe.

Abbreviation sclk :=
  (Digitizer.convert_analog_to_digital (Main.column1 df) (4 # 5) 2).
Abbreviation signal :=
  (Digitizer.convert_analog_to_digital (Main.column2 df) (4 # 5) 2).
Abbreviation latched :=
  (map (fun i => nth i signal PyNone) (clock_edges df)).

Lemma columns_same_length : length sclk = length signal.
Proof.
  rewrite !length_convert. unfold Main.column1, Main.column2.
  now rewrite !length_map.
Qed.

(** In [main] the latch never fails: the table decodes as its latched
    bits do. *)
Lemma decode_table_latched :
  Main.decode_table df = Decoder.decode_bitstream latched 8 true true.
Proof.
  unfold Main.decode_table.
  now rewrite latch_equal_lengths by apply columns_same_length.
Qed.

Lemma length_latched : length latched = length (clock_edges df).
Proof. apply length_map. Qed.

Lemma latched_Forall (P : pyval -> Prop) :
  Forall P signal -> Forall P latched.
Proof.
  intros HP. apply Forall_map, Forall_forall. intros i Hi.
  apply edge_indices_spec in Hi. destruct Hi as [Hi _].
  rewrite Forall_forall in HP. apply HP, nth_In.
  rewrite <- columns_same_length. lia.
Qed.

(** The only exceptions of the pipeline. *)
Lemma decode_table_raises (e : exn) :
  Main.decode_table df = Raise e ->
  e = TypeError \/
  exists k, e = CannotGroup 8 k /\ k mod 8 <> 0.
Proof.
  rewrite decode_table_latched.
  destruct (Z.eq_dec (Z.of_nat (length latched) mod 8) 0) as [Hmod|Hmod].
  - change 8 with (Z.of_nat 8) in *.
    rewrite decode_unfold by (lia || exact Hmod).
    intros Hraise. left. now apply decode_loop_only_type_error in Hraise.
  - rewrite decode_indivisible by (lia || exact Hmod).
    intros Hraise. inversion Hraise; subst. right. eauto.
Qed.



End Pipeline.




(** ** The program *)

Section Program.
Variable read_csv : string -> option Main.dataframe.

Lemma files_loop_all_decode (filenames : list string) :
  Forall (decodes read_csv) filenames ->
  forall stdout,
    Main.files_loop read_csv filenames stdout
    = (stdout ++ map (line_of read_csv) filenames, Main.Finished).
Proof.
  induction 1 as [|filename rest Hf _ IH]; intros stdout; simpl.
  - now rewrite app_nil_r.
  - unfold Main.convert_csv_to_dataframe, line_of.
    destruct (read_csv filename) as [table|] eqn:Hread.
    + destruct (Hf table Hread) as [decoded Hdec]. rewrite Hdec.
      rewrite IH. simpl. now rewrite <- app_assoc.
    + rewrite IH. now rewrite <- app_assoc.
Qed.

Lemma files_loop_failure (good : list string) (bad : string)
  (rest : list string) (table : Main.dataframe) (e : exn) :
  Forall (decodes read_csv) good ->
  read_csv bad = Some table ->
  Main.decode_table table = Raise e ->
  forall stdout,
    Main.files_loop read_csv (good ++ bad :: rest) stdout
    = (stdout ++ map (line_of read_csv) good, Main.Raised e).
Proof.
  intros Hgood Hread Hraise.
  induction Hgood as [|filename more Hf _ IH]; intros stdout; simpl.
  - unfold Main.convert_csv_to_dataframe. rewrite Hread, Hraise.
    reflexivity.
  - unfold Main.convert_csv_to_dataframe, line_of.
    destruct (read_csv filename) as [t|] eqn:Hr.
    + destruct (Hf t Hr) as [decoded Hdec]. rewrite Hdec.
      rewrite IH. simpl. now rewrite <- app_assoc.
    + rewrite IH. now rewrite <- app_assoc.
Qed.

Lemma files_loop_raises (filenames : list string) (e : exn) :
  forall stdout,
    snd (Main.files_loop read_csv filenames stdout) = Main.Raised e ->
    e = TypeError \/ exists k, e = CannotGroup 8 k /\ k mod 8 <> 0.
Proof.
  induction filenames as [|filename rest IH]; intros stdout; simpl.
  - discriminate.
  - unfold Main.convert_csv_to_dataframe.
    destruct (read_csv filename) as [table|]; [|apply IH].
    destruct (Main.decode_table table) as [decoded|e'] eqn:Hdec; [apply IH|].
    simpl. intros Heq. inversion Heq; subst e'.
    now apply (decode_table_raises table).
Qed.


(** The first file whose capture makes the pipeline raise ends the run
    with that exception: the lines of the files before it have been
    printed, nothing is printed for it, and the files after it are not
    processed. *)
Theorem main_stops_at_first_failure (program : string)
  (good : list string) (bad : string) (rest : list string)
  (table : Main.dataframe) (e : exn)
  (Hgood : Forall (decodes read_csv) good)
  (Hread : read_csv bad = Some table)
  (Hraise : Main.decode_table table = Raise e) :
  Main.main read_csv (program :: good ++ bad :: rest)
  = (map (line_of read_csv) good, Main.Raised e).
Proof.
  unfold Main.main.
  assert (Hlen : (length (program :: good ++ bad :: rest) <? 2)%nat = false).
  { apply Nat.ltb_ge. simpl. rewrite length_app. simpl. lia. }
  rewrite Hlen.
  change (skipn 1 (program :: good ++ bad :: rest)) with (good ++ bad :: rest).
  now rewrite (files_loop_failure good bad rest table e).
Qed.

End Program.


Lemma main_stops_at_first_failure_witness :
  Main.main example_disk
    ["spi_decoder.py"; "byte.csv"; "edge.csv"; "byte.csv"]%string
  = ([Main.Decoded "byte.csv" [PyStr "0xa5"]],
     Main.Raised (CannotGroup 8 1)).
Proof.
  refine (main_stops_at_first_failure example_disk "spi_decoder.py"
            ["byte.csv"%string] "edge.csv" ["byte.csv"%string]
            capture_one_edge (CannotGroup 8 1) _ eq_refl eq_refl).
  repeat constructor; intros table Hread; inversion Hread; subst;
    eexists; reflexivity.
Defined.

